(** * go-rpmdb: the RPM header value decoder and the package projector

  A shallow embedding of [entryValue], [getNEVRA] and
  [getPackageWithTags] (package [rpmdb]), with the pieces of the Go
  runtime and standard library they call: byte slices with a capacity,
  [bytes.Reader], [encoding/binary.Read], [bytes.TrimRight],
  [bytes.SplitN] and [encoding/hex.EncodeToString].

  Platform assumption: Go's [int] is 64 bits wide, so [int(x)] is the
  identity on every [uint32] and [int32] value. *)

From Stdlib Require Import ZArith NArith Strings.Byte Strings.String.
From Stdlib Require Import Numbers.DecimalString Numbers.DecimalZ.
From stdpp Require Import gmap list.

Local Open Scope Z_scope.

(** ** Go runtime: byte slices, errors, panics *)

Module Go.

(** A [[]byte]: the [len] visible bytes, and the bytes of the backing
    array between [len] and [cap], which a reslice can reach. *)
Record slice := mkSlice { view : list byte; beyond : list byte }.

Definition len (s : slice) : Z := Z.of_nat (length (view s)).
Definition cap (s : slice) : Z := Z.of_nat (length (view s ++ beyond s)).

(** A slice that owns its whole backing array, as [make] or a composite
    literal gives it. *)
Definition bytes (l : list byte) : slice := mkSlice l [].

(** [s[:high]]: the run-time check is [0 <= high <= cap(s)]; outside it
    the program panics, which is [None] here. *)
Definition slice_to (s : slice) (high : Z) : option slice :=
  if (0 <=? high) && (high <=? cap s)
  then Some (mkSlice (take (Z.to_nat high) (view s ++ beyond s))
                     (drop (Z.to_nat high) (view s ++ beyond s)))
  else None.

Inductive io_error := EOF | ErrUnexpectedEOF.

(** The [error] values these functions build: the package variable
    [ErrNotSupport], [xerrors.New(msg)] and
    [xerrors.Errorf(msg + ": %w", err)]. *)
Inductive error :=
| ErrNotSupport
| New (msg : string)
| Errorf (msg : string) (wrapped : io_error).

Inductive panic := SliceBoundsOutOfRange (high capacity : Z).

(** What a call of a function with results [(A, error)] does: it returns
    a value with a nil error, returns an error, or panics. *)
Inductive outcome (A : Type) :=
| Return (a : A)
| Fail (e : error)
| Panics (p : panic).
Arguments Return {A} a.
Arguments Fail {A} e.
Arguments Panics {A} p.

Definition byte_Z (b : byte) : Z := Z.of_N (Byte.to_N b).

(** Conversion of an unsigned 32-bit pattern to [int32]. *)
Definition int32 (u : Z) : Z :=
  let w := u mod 2 ^ 32 in
  if w <? 2 ^ 31 then w else w - 2 ^ 32.

End Go.
Export Go.

(** ** package bytes *)

Module Bytes.

Definition is_NUL (b : byte) : bool := Byte.eqb b x00.

(** The unread part of a [bytes.Reader]. *)
Definition Reader := list byte.

Definition NewReader (b : slice) : Reader := view b.

(** [TrimRight(s, "\x00")]: [s] without its trailing NUL bytes. *)
Fixpoint TrimRight (s : list byte) : list byte :=
  match s with
  | [] => []
  | b :: t =>
      match TrimRight t with
      | [] => if is_NUL b then [] else [b]
      | t' => b :: t'
      end
  end.

(** [genSplit] for the one-byte separator NUL and a limit [n >= 1]: cut
    at the first [n - 1] separators, the last piece is the unsplit
    remainder. *)
Fixpoint genSplit (s : list byte) (n : Z) : list (list byte) :=
  match s with
  | [] => [[]]
  | b :: t =>
      if (1 <? n) && is_NUL b then [] :: genSplit t (n - 1)
      else match genSplit t n with
           | [] => [[b]]
           | p :: ps => (b :: p) :: ps
           end
  end.

(** [SplitN(s, "\x00", n)]: nil for [n = 0], every piece for [n < 0],
    at most [n] pieces otherwise. *)
Definition SplitN (s : list byte) (n : Z) : list (list byte) :=
  if n =? 0 then []
  else if n <? 0 then genSplit s (Z.of_nat (length s) + 1)
  else genSplit s n.

End Bytes.

(** ** package encoding/binary and encoding/hex *)

Module Binary.

(** [io.ReadFull] on a [bytes.Reader] for a buffer of [n >= 1] bytes:
    the bytes and the rest of the reader, or [EOF] when nothing is
    left and [ErrUnexpectedEOF] when too little is. *)
Definition ReadFull (r : Bytes.Reader) (n : nat)
  : (io_error + list byte) * Bytes.Reader :=
  if (n <=? length r)%nat then (inr (take n r), drop n r)
  else match r with
       | [] => (inl EOF, [])
       | _ => (inl ErrUnexpectedEOF, [])
       end.

(** [binary.BigEndian.UintNN]: the bytes, most significant first. *)
Definition BigEndian (bs : list byte) : Z :=
  fold_left (fun acc b => Z.lor (Z.shiftl acc 8) (byte_Z b)) bs 0.

(** [binary.Read(r, binary.BigEndian, &value)] for a [byte]. *)
Definition Read_uint8 (r : Bytes.Reader) : (io_error + byte) * Bytes.Reader :=
  match ReadFull r 1 with
  | (inr [b], r') => (inr b, r')
  | (inr _, r') => (inl EOF, r')
  | (inl e, r') => (inl e, r')
  end.

(** The same for an unsigned integer of [n] bytes. *)
Definition Read_uint (n : nat) (r : Bytes.Reader) : (io_error + Z) * Bytes.Reader :=
  match ReadFull r n with
  | (inr bs, r') => (inr (BigEndian bs), r')
  | (inl e, r') => (inl e, r')
  end.

(** The same for an [int32]. *)
Definition Read_int32 (r : Bytes.Reader) : (io_error + Z) * Bytes.Reader :=
  match ReadFull r 4 with
  | (inr bs, r') => (inr (int32 (BigEndian bs)), r')
  | (inl e, r') => (inl e, r')
  end.

End Binary.

Module Hex.

Definition hextable : list byte :=
  Eval cbv in list_byte_of_string "0123456789abcdef".

Definition digit (i : N) : byte := nth (N.to_nat i) hextable x00.

(** [hex.EncodeToString]: two digits per byte, high nibble first. *)
Definition EncodeToString (src : list byte) : string :=
  string_of_list_byte
    (flat_map (fun v => [digit (N.shiftr (Byte.to_N v) 4);
                         digit (N.land (Byte.to_N v) 15)]) src).

End Hex.


(** ** package rpmdb: the data model *)

Definition TAG_ID := Z.   (* int32 *)
Definition TAG_TYPE := N. (* uint32 *)

Definition HEADER_IMAGE : TAG_ID := 61.
Definition HEADER_SIGNATURES : TAG_ID := 62.
Definition HEADER_IMMUTABLE : TAG_ID := 63.
Definition HEADER_REGIONS : TAG_ID := 64.
Definition RPMTAG_HEADERIMAGE : TAG_ID := HEADER_IMAGE.
Definition RPMTAG_HEADERREGIONS : TAG_ID := HEADER_REGIONS.

Definition HEADER_SIGBASE : TAG_ID := 256.
Definition RPMTAG_SIG_BASE : TAG_ID := HEADER_SIGBASE.
Definition RPMTAG_SIGMD5 : TAG_ID := RPMTAG_SIG_BASE + 5.

Definition RPMTAG_NAME : TAG_ID := 1000.
Definition RPMTAG_VERSION : TAG_ID := 1001.
Definition RPMTAG_RELEASE : TAG_ID := 1002.
Definition RPMTAG_EPOCH : TAG_ID := 1003.
Definition RPMTAG_SUMMARY : TAG_ID := 1004.
Definition RPMTAG_BUILDTIME : TAG_ID := 1006.
Definition RPMTAG_SIZE : TAG_ID := 1009.
Definition RPMTAG_VENDOR : TAG_ID := 1011.
Definition RPMTAG_LICENSE : TAG_ID := 1014.
Definition RPMTAG_ARCH : TAG_ID := 1022.
Definition RPMTAG_FILESTATES : TAG_ID := 1029.
Definition RPMTAG_SOURCERPM : TAG_ID := 1044.
Definition RPMTAG_BASENAMES : TAG_ID := 1117.

Definition RPM_NULL_TYPE : TAG_TYPE := 0%N.
Definition RPM_CHAR_TYPE : TAG_TYPE := 1%N.
Definition RPM_INT8_TYPE : TAG_TYPE := 2%N.
Definition RPM_INT16_TYPE : TAG_TYPE := 3%N.
Definition RPM_INT32_TYPE : TAG_TYPE := 4%N.
Definition RPM_INT64_TYPE : TAG_TYPE := 5%N.
Definition RPM_STRING_TYPE : TAG_TYPE := 6%N.
Definition RPM_BIN_TYPE : TAG_TYPE := 7%N.
Definition RPM_STRING_ARRAY_TYPE : TAG_TYPE := 8%N.
Definition RPM_I18NSTRING_TYPE : TAG_TYPE := 9%N.

(** Modelled from the spec: the declarations of [entryInfo] and
    [indexEntry] are not among the source files. The spec gives an index
    entry as [{info: {tag: i32, type: u32, offset: i32, count: u32},
    data}]; the functions below read [Info.Tag] against [TAG_ID]
    constants, [Info.Type] against [TAG_TYPE] constants, [Info.Count] as
    a length and [Data] as a [[]byte]. The field [Type] is [Typ] here. *)
Record entryInfo := mkInfo {
  Tag : TAG_ID;
  Typ : TAG_TYPE;
  Offset : Z;
  Count : N
}.

Record indexEntry := mkEntry {
  Info : entryInfo;
  Data : slice
}.

Record PackageInfo := mkPackageInfo {
  Epoch : Z;
  Name : string;
  Version : string;
  Release : string;
  Arch : string;
  SourceRpm : string;
  Size : Z;
  License : string;
  Vendor : string
}.

(** The dynamic types [entryValue] puts in an [interface{}]: [byte],
    [uint16], [uint32], [uint64], [string] and [[]string]. *)
Inductive value :=
| Uint8 (b : byte)
| Uint16 (n : Z)
| Uint32 (n : Z)
| Uint64 (n : Z)
| Str (s : string)
| Strs (l : list string).

Record PackageInfoEx := mkPackageInfoEx {
  Embedded : PackageInfo;
  TagsMap : gmap Z value
}.

(** [&PackageInfo{}]: every field at its zero value. *)
Definition zero_PackageInfo : PackageInfo :=
  mkPackageInfo 0 EmptyString EmptyString EmptyString EmptyString EmptyString 0 EmptyString EmptyString.

Definition with_Epoch v p := mkPackageInfo v (Name p) (Version p) (Release p) (Arch p) (SourceRpm p) (Size p) (License p) (Vendor p).
Definition with_Name v p := mkPackageInfo (Epoch p) v (Version p) (Release p) (Arch p) (SourceRpm p) (Size p) (License p) (Vendor p).
Definition with_Version v p := mkPackageInfo (Epoch p) (Name p) v (Release p) (Arch p) (SourceRpm p) (Size p) (License p) (Vendor p).
Definition with_Release v p := mkPackageInfo (Epoch p) (Name p) (Version p) v (Arch p) (SourceRpm p) (Size p) (License p) (Vendor p).
Definition with_Arch v p := mkPackageInfo (Epoch p) (Name p) (Version p) (Release p) v (SourceRpm p) (Size p) (License p) (Vendor p).
Definition with_SourceRpm v p := mkPackageInfo (Epoch p) (Name p) (Version p) (Release p) (Arch p) v (Size p) (License p) (Vendor p).
Definition with_Size v p := mkPackageInfo (Epoch p) (Name p) (Version p) (Release p) (Arch p) (SourceRpm p) v (License p) (Vendor p).
Definition with_License v p := mkPackageInfo (Epoch p) (Name p) (Version p) (Release p) (Arch p) (SourceRpm p) (Size p) v (Vendor p).
Definition with_Vendor v p := mkPackageInfo (Epoch p) (Name p) (Version p) (Release p) (Arch p) (SourceRpm p) (Size p) (License p) v.

(** An assignment to a promoted field of the embedded [PackageInfo]. *)
Definition on_Embedded (f : PackageInfo -> PackageInfo) (x : PackageInfoEx) : PackageInfoEx :=
  mkPackageInfoEx (f (Embedded x)) (TagsMap x).

(** [tagMask[tag]] on a [map[TAG_ID]bool]: [false] for an absent key. *)
Definition mask_lookup (tagMask : gmap Z bool) (tag : TAG_ID) : bool :=
  default false (tagMask !! tag).

(** ** entryValue *)

(** [values := make([]string, n)], then
    [for i := 0; i < len(values) && i < len(subStrings); i++
       { values[i] = string(subStrings[i]) }]:
    position [i] is walked in both lists at once. *)
Fixpoint fill_values (values : list string) (subStrings : list (list byte)) : list string :=
  match values, subStrings with
  | _ :: values', s :: subStrings' =>
      string_of_list_byte s :: fill_values values' subStrings'
  | _, _ => values
  end.

Definition split_strings (entry : indexEntry) : list string :=
  let values := replicate (N.to_nat (Count (Info entry))) EmptyString in
  let subStrings := Bytes.SplitN (view (Data entry)) (Z.of_N (Count (Info entry))) in
  fill_values values subStrings.

Definition read_failed : string := "failed to read binary byte".

Definition entryValue (entry : indexEntry) : outcome value :=
  let reader := Bytes.NewReader (Data entry) in
  let ty := Typ (Info entry) in
  if (ty =? RPM_NULL_TYPE)%N then Fail ErrNotSupport
  else if (ty =? RPM_CHAR_TYPE)%N || (ty =? RPM_INT8_TYPE)%N then
    match Binary.Read_uint8 reader with
    | (inl err, _) => Fail (Errorf read_failed err)
    | (inr _, reader) =>
        match Binary.Read_uint8 reader with
        | (inl err, _) => Fail (Errorf read_failed err)
        | (inr value, _) => Return (Uint8 value)
        end
    end
  else if (ty =? RPM_INT16_TYPE)%N then
    match Binary.Read_uint 2 reader with
    | (inl err, _) => Fail (Errorf read_failed err)
    | (inr value, _) => Return (Uint16 value)
    end
  else if (ty =? RPM_INT32_TYPE)%N then
    match Binary.Read_uint 4 reader with
    | (inl err, _) => Fail (Errorf read_failed err)
    | (inr value, _) => Return (Uint32 value)
    end
  else if (ty =? RPM_INT64_TYPE)%N then
    match Binary.Read_uint 8 reader with
    | (inl err, _) => Fail (Errorf read_failed err)
    | (inr value, _) => Return (Uint64 value)
    end
  else if (ty =? RPM_STRING_TYPE)%N then
    Return (Str (string_of_list_byte (Bytes.TrimRight (view (Data entry)))))
  else if (ty =? RPM_BIN_TYPE)%N then
    if (RPMTAG_HEADERIMAGE <=? Tag (Info entry)) && (Tag (Info entry) <? RPMTAG_HEADERREGIONS)
    then Fail ErrNotSupport
    else
      match slice_to (Data entry) (Z.of_N (Count (Info entry))) with
      | None => Panics (SliceBoundsOutOfRange (Z.of_N (Count (Info entry))) (cap (Data entry)))
      | Some s => Return (Str (Hex.EncodeToString (view s)))
      end
  else if (ty =? RPM_STRING_ARRAY_TYPE)%N then Return (Strs (split_strings entry))
  else if (ty =? RPM_I18NSTRING_TYPE)%N then Return (Strs (split_strings entry))
  else Fail ErrNotSupport.

(** ** getNEVRA and getPackageWithTags *)

(** [for _, indexEntry := range indexEntries { body }] over a state: a
    [return] or a panic in the body ends the loop. *)
Fixpoint for_range {S : Type} (body : S -> indexEntry -> outcome S)
  (st : S) (indexEntries : list indexEntry) : outcome S :=
  match indexEntries with
  | [] => Return st
  | indexEntry :: rest =>
      match body st indexEntry with
      | Return st' => for_range body st' rest
      | Fail e => Fail e
      | Panics p => Panics p
      end
  end.

(** [string(bytes.TrimRight(indexEntry.Data, "\x00"))] *)
Definition trimmed (indexEntry : indexEntry) : string :=
  string_of_list_byte (Bytes.TrimRight (view (Data indexEntry))).

(** The [switch] of [getNEVRA], one entry. *)
Definition getNEVRA_switch (pkgInfo : PackageInfo) (indexEntry : indexEntry)
  : outcome PackageInfo :=
  let tag := Tag (Info indexEntry) in
  let ty := Typ (Info indexEntry) in
  if tag =? RPMTAG_NAME then
    if negb (ty =? RPM_STRING_TYPE)%N then Fail (New "invalid tag name")
    else Return (with_Name (trimmed indexEntry) pkgInfo)
  else if tag =? RPMTAG_EPOCH then
    if negb (ty =? RPM_INT32_TYPE)%N then Fail (New "invalid tag epoch")
    else
      match Binary.Read_int32 (Bytes.NewReader (Data indexEntry)) with
      | (inl err, _) => Fail (Errorf "failed to read binary (epoch)" err)
      | (inr epoch, _) => Return (with_Epoch epoch pkgInfo)
      end
  else if tag =? RPMTAG_VERSION then
    if negb (ty =? RPM_STRING_TYPE)%N then Fail (New "invalid tag version")
    else Return (with_Version (trimmed indexEntry) pkgInfo)
  else if tag =? RPMTAG_RELEASE then
    if negb (ty =? RPM_STRING_TYPE)%N then Fail (New "invalid tag release")
    else Return (with_Release (trimmed indexEntry) pkgInfo)
  else if tag =? RPMTAG_ARCH then
    if negb (ty =? RPM_STRING_TYPE)%N then Fail (New "invalid tag arch")
    else Return (with_Arch (trimmed indexEntry) pkgInfo)
  else if tag =? RPMTAG_SOURCERPM then
    if negb (ty =? RPM_STRING_TYPE)%N then Fail (New "invalid tag sourcerpm")
    else
      let pkgInfo := with_SourceRpm (trimmed indexEntry) pkgInfo in
      if String.eqb (SourceRpm pkgInfo) "(none)"
      then Return (with_SourceRpm EmptyString pkgInfo)
      else Return pkgInfo
  else if tag =? RPMTAG_LICENSE then
    if negb (ty =? RPM_STRING_TYPE)%N then Fail (New "invalid tag license")
    else
      let pkgInfo := with_License (trimmed indexEntry) pkgInfo in
      if String.eqb (License pkgInfo) "(none)"
      then Return (with_License EmptyString pkgInfo)
      else Return pkgInfo
  else if tag =? RPMTAG_VENDOR then
    if negb (ty =? RPM_STRING_TYPE)%N then Fail (New "invalid tag vendor")
    else
      let pkgInfo := with_Vendor (trimmed indexEntry) pkgInfo in
      if String.eqb (Vendor pkgInfo) "(none)"
      then Return (with_Vendor EmptyString pkgInfo)
      else Return pkgInfo
  else if tag =? RPMTAG_SIZE then
    if negb (ty =? RPM_INT32_TYPE)%N then Fail (New "invalid tag size")
    else
      match Binary.Read_int32 (Bytes.NewReader (Data indexEntry)) with
      | (inl err, _) => Fail (Errorf "failed to read binary (size)" err)
      | (inr size, _) => Return (with_Size size pkgInfo)
      end
  else Return pkgInfo.

Definition getNEVRA (indexEntries : list indexEntry) : outcome PackageInfo :=
  for_range getNEVRA_switch zero_PackageInfo indexEntries.

(** The [switch] of [getPackageWithTags], one entry. *)
Definition getPackageWithTags_switch (tagMask : gmap Z bool)
  (pkgInfo : PackageInfoEx) (indexEntry : indexEntry) : outcome PackageInfoEx :=
  let tag := Tag (Info indexEntry) in
  let ty := Typ (Info indexEntry) in
  if tag =? RPMTAG_NAME then
    if negb (ty =? RPM_STRING_TYPE)%N then Fail (New "invalid tag name")
    else Return (on_Embedded (with_Name (trimmed indexEntry)) pkgInfo)
  else if tag =? RPMTAG_EPOCH then
    if negb (ty =? RPM_INT32_TYPE)%N then Fail (New "invalid tag epoch")
    else
      match Binary.Read_int32 (Bytes.NewReader (Data indexEntry)) with
      | (inl err, _) => Fail (Errorf "failed to read binary (epoch)" err)
      | (inr epoch, _) => Return (on_Embedded (with_Epoch epoch) pkgInfo)
      end
  else if tag =? RPMTAG_VERSION then
    if negb (ty =? RPM_STRING_TYPE)%N then Fail (New "invalid tag version")
    else Return (on_Embedded (with_Version (trimmed indexEntry)) pkgInfo)
  else if tag =? RPMTAG_RELEASE then
    if negb (ty =? RPM_STRING_TYPE)%N then Fail (New "invalid tag release")
    else Return (on_Embedded (with_Release (trimmed indexEntry)) pkgInfo)
  else if tag =? RPMTAG_ARCH then
    if negb (ty =? RPM_STRING_TYPE)%N then Fail (New "invalid tag arch")
    else Return (on_Embedded (with_Arch (trimmed indexEntry)) pkgInfo)
  else if tag =? RPMTAG_SOURCERPM then
    if negb (ty =? RPM_STRING_TYPE)%N then Fail (New "invalid tag sourcerpm")
    else
      let pkgInfo := on_Embedded (with_SourceRpm (trimmed indexEntry)) pkgInfo in
      if String.eqb (SourceRpm (Embedded pkgInfo)) "(none)"
      then Return (on_Embedded (with_SourceRpm EmptyString) pkgInfo)
      else Return pkgInfo
  else if tag =? RPMTAG_LICENSE then
    if negb (ty =? RPM_STRING_TYPE)%N then Fail (New "invalid tag license")
    else
      let pkgInfo := on_Embedded (with_License (trimmed indexEntry)) pkgInfo in
      if String.eqb (License (Embedded pkgInfo)) "(none)"
      then Return (on_Embedded (with_License EmptyString) pkgInfo)
      else Return pkgInfo
  else if tag =? RPMTAG_VENDOR then
    if negb (ty =? RPM_STRING_TYPE)%N then Fail (New "invalid tag vendor")
    else
      let pkgInfo := on_Embedded (with_Vendor (trimmed indexEntry)) pkgInfo in
      if String.eqb (Vendor (Embedded pkgInfo)) "(none)"
      then Return (on_Embedded (with_Vendor EmptyString) pkgInfo)
      else Return pkgInfo
  else if tag =? RPMTAG_SIZE then
    if negb (ty =? RPM_INT32_TYPE)%N then Fail (New "invalid tag size")
    else
      match Binary.Read_int32 (Bytes.NewReader (Data indexEntry)) with
      | (inl err, _) => Fail (Errorf "failed to read binary (size)" err)
      | (inr size, _) => Return (on_Embedded (with_Size size) pkgInfo)
      end
  else if mask_lookup tagMask tag then
    match entryValue indexEntry with
    | Return v => Return (mkPackageInfoEx (Embedded pkgInfo) (<[tag := v]> (TagsMap pkgInfo)))
    | Fail _ => Return pkgInfo
    | Panics p => Panics p
    end
  else Return pkgInfo.

Definition getPackageWithTags (indexEntries : list indexEntry) (tagMask : gmap Z bool)
  : outcome PackageInfoEx :=
  for_range (getPackageWithTags_switch tagMask)
            (mkPackageInfoEx zero_PackageInfo ∅) indexEntries.

(** ** Test data *)

Definition entry (tag : TAG_ID) (ty : TAG_TYPE) (count : N) (data : list byte) : indexEntry :=
  mkEntry (mkInfo tag ty 0 count) (bytes data).

Definition ascii_bytes (s : string) : list byte := list_byte_of_string s.

(** A file-states entry of one byte, and one of two bytes. *)
Definition states_one : indexEntry := entry RPMTAG_FILESTATES RPM_CHAR_TYPE 1 [x41].
Definition states_two : indexEntry := entry RPMTAG_FILESTATES RPM_INT8_TYPE 2 [x41; x42].

(** The base names ["a"] and ["b"], each NUL-terminated, as the header
    stores a string array of count 2. *)
Definition basenames : indexEntry :=
  entry RPMTAG_BASENAMES RPM_STRING_ARRAY_TYPE 2 [x61; x00; x62; x00].

(** The region trailer of an immutable region: BIN, count 16. *)
Definition region_trailer : indexEntry :=
  entry HEADER_IMMUTABLE RPM_BIN_TYPE 16
    [x00; x00; x00; x3f; x00; x00; x00; x07; xff; xff; xff; x60; x00; x00; x00; x10].

(** An MD5 signature entry cut to four bytes, with a count that fits
    and with one that does not. *)
Definition sigmd5 : indexEntry := entry RPMTAG_SIGMD5 RPM_BIN_TYPE 4 [xde; xad; xbe; xef].
Definition sigmd5_beyond : indexEntry := entry RPMTAG_SIGMD5 RPM_BIN_TYPE 16 [xde; xad; xbe; xef].

(** The same signature with a data slice of two bytes that shares its
    backing array with the two bytes after it, as a subslice of the
    header blob does. *)
Definition sigmd5_shared : indexEntry :=
  mkEntry (mkInfo RPMTAG_SIGMD5 RPM_BIN_TYPE 0 4) (mkSlice [xde; xad] [xbe; xef]).

(** A NAME entry declared BIN with a count beyond its data, and an
    EPOCH entry with two bytes of data. *)
Definition name_as_bin : indexEntry :=
  entry RPMTAG_NAME RPM_BIN_TYPE 16 [xde; xad; xbe; xef].
Definition epoch_short : indexEntry :=
  entry RPMTAG_EPOCH RPM_INT32_TYPE 1 [x00; x01].

Definition name_bash : indexEntry :=
  entry RPMTAG_NAME RPM_STRING_TYPE 1 (ascii_bytes "bash" ++ [x00]).
Definition name_as_int32 : indexEntry :=
  entry RPMTAG_NAME RPM_INT32_TYPE 1 [x00; x00; x00; x01].
Definition vendor_none : indexEntry :=
  entry RPMTAG_VENDOR RPM_STRING_TYPE 1 (ascii_bytes "(none)" ++ [x00]).
Definition license_gpl : indexEntry :=
  entry RPMTAG_LICENSE RPM_STRING_TYPE 1 (ascii_bytes "GPLv3+" ++ [x00]).
Definition sourcerpm_empty : indexEntry :=
  entry RPMTAG_SOURCERPM RPM_STRING_TYPE 1 [x00].
(** An epoch of -2 with a declared count of 2, and a size of 7000000. *)
Definition epoch_two_words : indexEntry :=
  entry RPMTAG_EPOCH RPM_INT32_TYPE 2 [xff; xff; xff; xfe; x00; x00; x00; x01].
Definition size_7000000 : indexEntry :=
  entry RPMTAG_SIZE RPM_INT32_TYPE 1 [x00; x6a; xcf; xc0].
Definition summary_null : indexEntry :=
  entry RPMTAG_SUMMARY RPM_NULL_TYPE 0 [].

Definition request (tags : list TAG_ID) : gmap Z bool :=
  foldr (fun t m => <[t := true]> m) ∅ tags.

(** ** Vocabulary of the statements *)

(** The nine tags [getNEVRA] has a case for. *)
Definition nevra_tags : list TAG_ID :=
  [RPMTAG_NAME; RPMTAG_EPOCH; RPMTAG_VERSION; RPMTAG_RELEASE; RPMTAG_ARCH;
   RPMTAG_SOURCERPM; RPMTAG_LICENSE; RPMTAG_VENDOR; RPMTAG_SIZE].

Definition is_nevra_tag (tag : TAG_ID) : bool :=
  existsb (Z.eqb tag) nevra_tags.

(** The required type of each of the nine tags (the spec's table). *)
Definition required_type (tag : TAG_ID) : TAG_TYPE :=
  if (tag =? RPMTAG_EPOCH) || (tag =? RPMTAG_SIZE)
  then RPM_INT32_TYPE else RPM_STRING_TYPE.

(** The tag interval [[HEADER_IMAGE, HEADER_REGIONS)]. *)
Definition region_tag (tag : TAG_ID) : bool :=
  (HEADER_IMAGE <=? tag) && (tag <? HEADER_REGIONS).

(** The bound on a requested BIN entry outside the region interval:
    its count does not exceed the length of its data. *)
Definition bin_count_ok (tagMask : gmap Z bool) (e : indexEntry) : bool :=
  negb (mask_lookup tagMask (Tag (Info e))
        && (Typ (Info e) =? RPM_BIN_TYPE)%N
        && negb (region_tag (Tag (Info e))))
  || (Z.of_N (Count (Info e)) <=? len (Data e)).

Definition bin_counts_ok (tagMask : gmap Z bool) (l : list indexEntry) : bool :=
  forallb (bin_count_ok tagMask) l.

(** No entry of [l] carries [tag]. *)
Definition tag_absent (tag : TAG_ID) (l : list indexEntry) : bool :=
  forallb (fun e => negb (Tag (Info e) =? tag)) l.

(** The spec's sentinel rule, in its words: a value literally equal to
    ["(none)"] is normalized to the empty string. *)
Definition normalize_none (s : string) : string :=
  if String.eqb s "(none)" then EmptyString else s.

(** The spec's signed big-endian 32-bit integer of four bytes. *)
Definition signed_be32 (b0 b1 b2 b3 : byte) : Z :=
  let u := byte_Z b0 * 2 ^ 24 + byte_Z b1 * 2 ^ 16 + byte_Z b2 * 2 ^ 8 + byte_Z b3 in
  if u <? 2 ^ 31 then u else u - 2 ^ 32.

(** The number of NUL bytes of a byte sequence, and whether a string
    holds one. *)
Definition count_NUL (s : list byte) : nat := length (List.filter Bytes.is_NUL s).

Definition has_NUL (s : string) : bool :=
  existsb Bytes.is_NUL (list_byte_of_string s).

(** A lowercase hexadecimal digit, [0-9a-f]. *)
Definition is_lower_hex (b : byte) : bool :=
  existsb (Byte.eqb b) (list_byte_of_string "0123456789abcdef").

(** Reading a hex string back: the value of a digit of [0-9a-f], and
    the bytes of a string of digit pairs, high nibble first. *)
Definition hex_value (c : byte) : option N :=
  let n := Byte.to_N c in
  if (48 <=? n)%N && (n <=? 57)%N then Some (n - 48)%N
  else if (97 <=? n)%N && (n <=? 102)%N then Some (n - 87)%N
  else None.

Fixpoint hex_decode (cs : list byte) : option (list byte) :=
  match cs with
  | [] => Some []
  | hi :: lo :: rest =>
      match hex_value hi, hex_value lo, hex_decode rest with
      | Some h, Some l, Some bs =>
          match Byte.of_N (16 * h + l) with
          | Some b => Some (b :: bs)
          | None => None
          end
      | _, _, _ => None
      end
  | [_] => None
  end.

(** The pieces joined again with one NUL between neighbours. *)
Fixpoint join_NUL (pieces : list (list byte)) : list byte :=
  match pieces with
  | [] => []
  | [p] => p
  | p :: ps => p ++ x00 :: join_NUL ps
  end.

(** ** The rest of the package: String, dumpEntry, the listings *)

(** [strconv.FormatInt(n, 10)]: the decimal digits, with a sign for a
    negative number. *)
Definition FormatInt (n : Z) : string := NilZero.string_of_int (Z.to_int n).

(** [s[lo:hi]] on a string: the run-time check is [lo <= hi <= len(s)];
    outside it the program panics, which is [None] here. *)
Definition string_slice (s : string) (lo hi : N) : option string :=
  if (lo <=? hi)%N && (hi <=? N.of_nat (String.length s))%N
  then Some (substring (N.to_nat lo) (N.to_nat (hi - lo)) s)
  else None.

Definition _TAG_TYPE_name : string :=
  "RPM_NULL_TYPERPM_CHAR_TYPERPM_INT8_TYPERPM_INT16_TYPERPM_INT32_TYPERPM_INT64_TYPERPM_STRING_TYPERPM_BIN_TYPERPM_STRING_ARRAY_TYPERPM_I18NSTRING_TYPE".

Definition _TAG_TYPE_index : list N :=
  [0; 13; 26; 39; 53; 67; 81; 96; 108; 129; 148]%N.

(** [func (i TAG_TYPE) String() string]; an index outside the offsets
    array or a slice outside the name string would panic ([None]). *)
Definition TAG_TYPE_String (i : TAG_TYPE) : option string :=
  if (N.of_nat (length _TAG_TYPE_index) - 1 <=? i)%N
  then Some (String.append "TAG_TYPE(" (String.append (FormatInt (Z.of_N i)) ")"))
  else
    match _TAG_TYPE_index !! N.to_nat i, _TAG_TYPE_index !! N.to_nat (i + 1) with
    | Some lo, Some hi => string_slice _TAG_TYPE_name lo hi
    | _, _ => None
    end.

(** The names of the ten type constants, in the order of their values. *)
Definition TAG_TYPE_names : list string :=
  ["RPM_NULL_TYPE"; "RPM_CHAR_TYPE"; "RPM_INT8_TYPE"; "RPM_INT16_TYPE";
   "RPM_INT32_TYPE"; "RPM_INT64_TYPE"; "RPM_STRING_TYPE"; "RPM_BIN_TYPE";
   "RPM_STRING_ARRAY_TYPE"; "RPM_I18NSTRING_TYPE"]%string.

(** One call [fmt.Printf("TAG: %v, TYPE: %v, DATA: %v\n", tag, type,
    value)] of [dumpEntry], by its three arguments. *)
Definition printed := (TAG_ID * TAG_TYPE * value)%type.

(** [dumpEntry]: what it prints when it returns nil, the error it
    returns (nothing is printed before an error), or a panic. *)
Definition dumpEntry (entry : indexEntry) : outcome (list printed) :=
  let reader := Bytes.NewReader (Data entry) in
  let tag := Tag (Info entry) in
  let ty := Typ (Info entry) in
  if (ty =? RPM_NULL_TYPE)%N then Return []
  else if (ty =? RPM_CHAR_TYPE)%N || (ty =? RPM_INT8_TYPE)%N then
    match Binary.Read_uint8 reader with
    | (inl err, _) => Fail (Errorf read_failed err)
    | (inr _, reader) =>
        match Binary.Read_uint8 reader with
        | (inl err, _) => Fail (Errorf read_failed err)
        | (inr value, _) => Return [(tag, ty, Uint8 value)]
        end
    end
  else if (ty =? RPM_INT16_TYPE)%N then
    match Binary.Read_uint 2 reader with
    | (inl err, _) => Fail (Errorf read_failed err)
    | (inr value, _) => Return [(tag, ty, Uint16 value)]
    end
  else if (ty =? RPM_INT32_TYPE)%N then
    match Binary.Read_uint 4 reader with
    | (inl err, _) => Fail (Errorf read_failed err)
    | (inr value, _) => Return [(tag, ty, Uint32 value)]
    end
  else if (ty =? RPM_INT64_TYPE)%N then
    match Binary.Read_uint 8 reader with
    | (inl err, _) => Fail (Errorf read_failed err)
    | (inr value, _) => Return [(tag, ty, Uint64 value)]
    end
  else if (ty =? RPM_STRING_TYPE)%N then
    Return [(tag, ty, Str (string_of_list_byte (Bytes.TrimRight (view (Data entry)))))]
  else if (ty =? RPM_BIN_TYPE)%N then
    if (RPMTAG_HEADERIMAGE <=? tag) && (tag <? RPMTAG_HEADERREGIONS)
    then Return []
    else
      match slice_to (Data entry) (Z.of_N (Count (Info entry))) with
      | None => Panics (SliceBoundsOutOfRange (Z.of_N (Count (Info entry))) (cap (Data entry)))
      | Some s => Return [(tag, ty, Str (Hex.EncodeToString (view s)))]
      end
  else if (ty =? RPM_STRING_ARRAY_TYPE)%N then Return [(tag, ty, Strs (split_strings entry))]
  else if (ty =? RPM_I18NSTRING_TYPE)%N then Return [(tag, ty, Strs (split_strings entry))]
  else Return [].

(** Modelled from the spec: package [bdb] is not among the source files.
    [d.db.Read()] is taken as the finite sequence of entries its channel
    delivers, each with the fields the listings read: [Value], and [Err]
    (nil is [None]). *)
Record bdb_entry (Edb : Type) := mkBdbEntry {
  Value : slice;
  Err : option Edb
}.
Arguments mkBdbEntry {Edb} Value Err.
Arguments Value {Edb} b.
Arguments Err {Edb} b.

(** The errors a listing returns: [entry.Err] as it is,
    [xerrors.Errorf("error during importing header: %w", err)] and
    [xerrors.Errorf("invalid package info: %w", err)]. *)
Inductive list_error (Edb Eimp : Type) :=
| EntryErr (e : Edb)
| ImportingHeader (e : Eimp)
| InvalidPackageInfo (e : error).
Arguments EntryErr {Edb Eimp} e.
Arguments ImportingHeader {Edb Eimp} e.
Arguments InvalidPackageInfo {Edb Eimp} e.

Inductive listing (Edb Eimp A : Type) :=
| Listed (pkgList : list A)
| ListFailed (e : list_error Edb Eimp)
| ListPanics (p : panic).
Arguments Listed {Edb Eimp A} pkgList.
Arguments ListFailed {Edb Eimp A} e.
Arguments ListPanics {Edb Eimp A} p.

(** [ListPackages], the loop over the entries read. [headerImport] is
    not among the source files and is a parameter: a function that
    returns the index entries of a value or an error. *)
Fixpoint ListPackages_loop {Edb Eimp : Type}
  (headerImport : slice -> Eimp + list indexEntry)
  (pkgList : list PackageInfo) (entries : list (bdb_entry Edb))
  : listing Edb Eimp PackageInfo :=
  match entries with
  | [] => Listed pkgList
  | entry :: rest =>
      match Err entry with
      | Some err => ListFailed (EntryErr err)
      | None =>
          match headerImport (Value entry) with
          | inl err => ListFailed (ImportingHeader err)
          | inr indexEntries =>
              match getNEVRA indexEntries with
              | Fail err => ListFailed (InvalidPackageInfo err)
              | Panics p => ListPanics p
              | Return pkg => ListPackages_loop headerImport (pkgList ++ [pkg]) rest
              end
          end
      end
  end.

Definition ListPackages {Edb Eimp : Type}
  (headerImport : slice -> Eimp + list indexEntry) (entries : list (bdb_entry Edb))
  : listing Edb Eimp PackageInfo :=
  ListPackages_loop headerImport [] entries.

(** [tagMask := make(map[TAG_ID]bool)], then
    [for i := 0; i < len(ids); i++ { tagMask[ids[i]] = true }]. *)
Definition make_tagMask (ids : list TAG_ID) : gmap Z bool :=
  fold_left (fun tagMask id => <[id := true]> tagMask) ids ∅.

Fixpoint ListPackagesWithTags_loop {Edb Eimp : Type}
  (headerImport : slice -> Eimp + list indexEntry) (tagMask : gmap Z bool)
  (pkgList : list PackageInfoEx) (entries : list (bdb_entry Edb))
  : listing Edb Eimp PackageInfoEx :=
  match entries with
  | [] => Listed pkgList
  | entry :: rest =>
      match Err entry with
      | Some err => ListFailed (EntryErr err)
      | None =>
          match headerImport (Value entry) with
          | inl err => ListFailed (ImportingHeader err)
          | inr indexEntries =>
              match getPackageWithTags indexEntries tagMask with
              | Fail err => ListFailed (InvalidPackageInfo err)
              | Panics p => ListPanics p
              | Return pkg =>
                  ListPackagesWithTags_loop headerImport tagMask (pkgList ++ [pkg]) rest
              end
          end
      end
  end.

Definition ListPackagesWithTags {Edb Eimp : Type}
  (headerImport : slice -> Eimp + list indexEntry) (entries : list (bdb_entry Edb))
  (ids : list TAG_ID) : listing Edb Eimp PackageInfoEx :=
  ListPackagesWithTags_loop headerImport (make_tagMask ids) [] entries.

(** An entry is acceptable to [getNEVRA]: outside the nine tags, or of
    the required type and, for the two integer tags, with four bytes
    of data to read. *)
Definition nevra_entry_ok (e : indexEntry) : bool :=
  negb (is_nevra_tag (Tag (Info e)))
  || ((Typ (Info e) =? required_type (Tag (Info e)))%N
      && ((required_type (Tag (Info e)) =? RPM_STRING_TYPE)%N
          || (4 <=? length (view (Data e)))%nat)).

(** A record that lists: no read error, a header that imports, and
    index entries that project to [pkg]. *)
Definition lists_as {Edb Eimp : Type}
  (headerImport : slice -> Eimp + list indexEntry)
  (entry : bdb_entry Edb) (pkg : PackageInfo) : Prop :=
  Err entry = None /\
  exists indexEntries,
    headerImport (Value entry) = inr indexEntries /\
    getNEVRA indexEntries = Return pkg.

(** The same for the extended listing under a tag mask. *)
Definition lists_with_tags_as {Edb Eimp : Type}
  (headerImport : slice -> Eimp + list indexEntry) (tagMask : gmap Z bool)
  (entry : bdb_entry Edb) (pkg : PackageInfoEx) : Prop :=
  Err entry = None /\
  exists indexEntries,
    headerImport (Value entry) = inr indexEntries /\
    getPackageWithTags indexEntries tagMask = Return pkg.

(** Records for examples: two good values, a rejected one, a read error. *)
Definition good_record : bdb_entry string := mkBdbEntry (bytes [x00]) None.
Definition bad_record : bdb_entry string := mkBdbEntry (bytes [x01]) None.
Definition failed_record : bdb_entry string :=
  mkBdbEntry (bytes []) (Some "unexpected EOF"%string).

(** The number a byte sequence spells in base 256, most significant
    byte first. *)
Definition be_value (bs : list byte) : Z :=
  fold_left (fun acc b => acc * 256 + byte_Z b) bs 0.

(** What a read of [n] bytes reports when fewer are left. *)
Definition short_read (data : list byte) : io_error :=
  match data with [] => EOF | _ => ErrUnexpectedEOF end.

Definition int16_be : indexEntry := entry 5011 RPM_INT16_TYPE 1 [x01; x02; x03].
Definition int64_short : indexEntry := entry 5009 RPM_INT64_TYPE 1 [x01; x02; x03].
Definition summary_gnu : indexEntry :=
  entry RPMTAG_SUMMARY RPM_STRING_TYPE 1 (ascii_bytes "The GNU shell" ++ [x00; x00]).
Definition unknown_type : indexEntry := entry RPMTAG_SUMMARY 12%N 1 [x00].

(** A stand-in for [headerImport] in examples: a value of one byte [n]
    holds a NAME entry when [n] is zero and is rejected otherwise. *)
Definition toy_import (v : slice) : string + list indexEntry :=
  match view v with
  | [x00] => inr [name_bash; sigmd5]
  | _ => inl "bad magic"%string
  end.

(** ** The library models: basic facts *)

Lemma is_NUL_true (b : byte) : Bytes.is_NUL b = true <-> b = x00.
Proof.
  unfold Bytes.is_NUL. split.
  - apply Byte.byte_dec_bl.
  - apply Byte.byte_dec_lb.
Qed.

Lemma is_NUL_false (b : byte) : Bytes.is_NUL b = false <-> b <> x00.
Proof.
  rewrite <- is_NUL_true. destruct (Bytes.is_NUL b); split; congruence.
Qed.

(** [TrimRight] only removes NUL bytes, and only from the end. *)
Lemma TrimRight_decompose (s : list byte) :
  exists k, s = Bytes.TrimRight s ++ replicate k x00.
Proof.
  induction s as [|b t [k IH]]; simpl.
  - exists 0%nat. reflexivity.
  - destruct (Bytes.TrimRight t) as [|c t'] eqn:E.
    + destruct (Bytes.is_NUL b) eqn:Hb.
      * apply is_NUL_true in Hb. subst b. exists (S k). simpl in *. congruence.
      * exists k. simpl in *. congruence.
    + exists k. simpl in *. congruence.
Qed.

(** What [TrimRight] leaves does not end in a NUL byte. *)
Lemma TrimRight_last (s : list byte) : last (Bytes.TrimRight s) <> Some x00.
Proof.
  induction s as [|b t IH]; simpl; [discriminate|].
  destruct (Bytes.TrimRight t) as [|c t'] eqn:E.
  - destruct (Bytes.is_NUL b) eqn:Hb; simpl; [discriminate|].
    apply is_NUL_false in Hb. congruence.
  - exact IH.
Qed.

(** A slice that does not end in NUL is left alone. *)
Lemma TrimRight_id (s : list byte) : last s <> Some x00 -> Bytes.TrimRight s = s.
Proof.
  induction s as [|b t IH]; simpl; [reflexivity|].
  destruct t as [|c t'].
  - simpl. intros H. destruct (Bytes.is_NUL b) eqn:Hb; [|reflexivity].
    apply is_NUL_true in Hb. congruence.
  - intros H. rewrite IH by exact H. reflexivity.
Qed.

Lemma TrimRight_idempotent (s : list byte) :
  Bytes.TrimRight (Bytes.TrimRight s) = Bytes.TrimRight s.
Proof. apply TrimRight_id, TrimRight_last. Qed.

Lemma ReadFull_enough (r : list byte) (n : nat) :
  (n <= length r)%nat -> Binary.ReadFull r n = (inr (take n r), drop n r).
Proof.
  intros H. unfold Binary.ReadFull.
  destruct (Nat.leb_spec n (length r)); [reflexivity|lia].
Qed.

Lemma ReadFull_short (r : list byte) (n : nat) :
  (length r < n)%nat -> exists e, Binary.ReadFull r n = (inl e, []).
Proof.
  intros H. unfold Binary.ReadFull.
  destruct (Nat.leb_spec n (length r)); [lia|].
  destruct r; eauto.
Qed.

Lemma byte_Z_range (b : byte) : 0 <= byte_Z b < 2 ^ 8.
Proof.
  unfold byte_Z. pose proof (Byte.to_N_bounded b) as H.
  change (2 ^ 8) with 256. lia.
Qed.

(** Appending a byte to a big-endian number. *)
Lemma lor_shiftl_byte (a b : Z) :
  0 <= b < 2 ^ 8 -> Z.lor (Z.shiftl a 8) b = a * 2 ^ 8 + b.
Proof.
  intros Hb. rewrite Z.shiftl_mul_pow2 by lia.
  assert (Hland : Z.land (a * 2 ^ 8) b = 0).
  { apply Z.bits_inj'; intros n Hn. rewrite Z.land_spec, Z.bits_0.
    destruct (Z.lt_ge_cases n 8) as [Hlt|Hge].
    - rewrite Z.mul_pow2_bits_low by lia. reflexivity.
    - destruct (Z.eq_dec b 0) as [->|Hnz].
      + rewrite Z.bits_0. apply andb_false_r.
      + rewrite (Z.bits_above_log2 b n); [apply andb_false_r|lia|].
        apply Z.lt_le_trans with 8; [apply Z.log2_lt_pow2; lia|lia]. }
  rewrite <- Z.lxor_lor by exact Hland.
  symmetry. apply Z.add_nocarry_lxor. exact Hland.
Qed.

Lemma BigEndian_4 (b0 b1 b2 b3 : byte) :
  Binary.BigEndian [b0; b1; b2; b3]
  = byte_Z b0 * 2 ^ 24 + byte_Z b1 * 2 ^ 16 + byte_Z b2 * 2 ^ 8 + byte_Z b3.
Proof.
  unfold Binary.BigEndian. cbn [fold_left].
  rewrite !lor_shiftl_byte by apply byte_Z_range.
  change (2 ^ 24) with (2 ^ 8 * 2 ^ 8 * 2 ^ 8). change (2 ^ 16) with (2 ^ 8 * 2 ^ 8).
  ring.
Qed.

Lemma int32_signed_be32 (b0 b1 b2 b3 : byte) :
  int32 (Binary.BigEndian [b0; b1; b2; b3]) = signed_be32 b0 b1 b2 b3.
Proof.
  rewrite BigEndian_4. unfold int32, signed_be32.
  pose proof (byte_Z_range b0). pose proof (byte_Z_range b1).
  pose proof (byte_Z_range b2). pose proof (byte_Z_range b3).
  rewrite Z.mod_small; [reflexivity|].
  change (2 ^ 32) with 4294967296. change (2 ^ 24) with 16777216.
  change (2 ^ 16) with 65536. change (2 ^ 8) with 256 in *. lia.
Qed.

Lemma signed_be32_range (b0 b1 b2 b3 : byte) :
  - 2 ^ 31 <= signed_be32 b0 b1 b2 b3 < 2 ^ 31.
Proof.
  unfold signed_be32.
  pose proof (byte_Z_range b0). pose proof (byte_Z_range b1).
  pose proof (byte_Z_range b2). pose proof (byte_Z_range b3).
  change (2 ^ 32) with 4294967296. change (2 ^ 31) with 2147483648.
  change (2 ^ 24) with 16777216. change (2 ^ 16) with 65536.
  change (2 ^ 8) with 256 in *.
  match goal with |- context [?a <? ?b] => destruct (Z.ltb_spec a b) end; lia.
Qed.

(** [binary.Read] into an [int32]: four bytes or an error. *)
Lemma Read_int32_four (b0 b1 b2 b3 : byte) (rest : list byte) :
  Binary.Read_int32 (b0 :: b1 :: b2 :: b3 :: rest)
  = (inr (signed_be32 b0 b1 b2 b3), rest).
Proof.
  unfold Binary.Read_int32. rewrite ReadFull_enough by (simpl; lia).
  simpl. rewrite int32_signed_be32. reflexivity.
Qed.

Lemma Read_int32_short (r : list byte) :
  (length r < 4)%nat -> exists e, Binary.Read_int32 r = (inl e, []).
Proof.
  intros H. unfold Binary.Read_int32.
  destruct (ReadFull_short r 4 H) as [e ->]. eauto.
Qed.

(** ** The loop and the two switches *)

Lemma for_range_app {S : Type} (body : S -> indexEntry -> outcome S)
  (l1 l2 : list indexEntry) (st : S) :
  for_range body st (l1 ++ l2)
  = match for_range body st l1 with
    | Return st' => for_range body st' l2
    | Fail e => Fail e
    | Panics p => Panics p
    end.
Proof.
  revert st. induction l1 as [|e l1 IH]; intros st; simpl; [reflexivity|].
  destruct (body st e); auto.
Qed.

(** An entry on which the body returns the state unchanged can be left
    out of the list. *)
Lemma for_range_skip {S : Type} (body : S -> indexEntry -> outcome S)
  (l1 l2 : list indexEntry) (e : indexEntry) (st : S) :
  (forall st', body st' e = Return st') ->
  for_range body st (l1 ++ e :: l2) = for_range body st (l1 ++ l2).
Proof.
  intros H. rewrite !for_range_app.
  destruct (for_range body st l1); [|reflexivity..].
  simpl. rewrite H. reflexivity.
Qed.

(** Case analysis on the tests a switch makes, outermost first. *)
Ltac switch_step :=
  match goal with
  | |- context [if Z.eqb ?a ?b then _ else _] => destruct (Z.eqb a b); cbv beta iota
  | |- context [N.eqb ?a ?b] => destruct (N.eqb a b); cbv beta iota delta [negb]
  | |- context [if String.eqb ?a ?b then _ else _] => destruct (String.eqb a b); cbv beta iota
  | |- context [Binary.Read_int32 ?r] =>
      destruct (Binary.Read_int32 r) as [[?|?] ?]; cbv beta iota
  end.

(** Projections of the record updates the switches make. *)
Ltac fields :=
  cbn [Embedded TagsMap on_Embedded
       Epoch Name Version Release Arch SourceRpm Size License Vendor
       with_Epoch with_Name with_Version with_Release with_Arch
       with_SourceRpm with_Size with_License with_Vendor] in *.

Lemma is_nevra_tag_false (tag : TAG_ID) :
  is_nevra_tag tag = false ->
  (tag =? RPMTAG_NAME) = false /\ (tag =? RPMTAG_EPOCH) = false /\
  (tag =? RPMTAG_VERSION) = false /\ (tag =? RPMTAG_RELEASE) = false /\
  (tag =? RPMTAG_ARCH) = false /\ (tag =? RPMTAG_SOURCERPM) = false /\
  (tag =? RPMTAG_LICENSE) = false /\ (tag =? RPMTAG_VENDOR) = false /\
  (tag =? RPMTAG_SIZE) = false.
Proof.
  unfold is_nevra_tag, nevra_tags. cbn [existsb]. intros H.
  rewrite !orb_false_iff in H. tauto.
Qed.

(** [getNEVRA] has no case for a tag outside the nine. *)
Lemma getNEVRA_switch_other (pkgInfo : PackageInfo) (e : indexEntry) :
  is_nevra_tag (Tag (Info e)) = false -> getNEVRA_switch pkgInfo e = Return pkgInfo.
Proof.
  intros H. apply is_nevra_tag_false in H.
  destruct H as (H1 & H2 & H3 & H4 & H5 & H6 & H7 & H8 & H9).
  unfold getNEVRA_switch. cbv zeta.
  rewrite H1, H2, H3, H4, H5, H6, H7, H8, H9. reflexivity.
Qed.

(** Outside the nine tags, [getPackageWithTags] is in its default case. *)
Lemma getPackageWithTags_switch_other (tagMask : gmap Z bool)
  (pkgInfo : PackageInfoEx) (e : indexEntry) :
  is_nevra_tag (Tag (Info e)) = false ->
  getPackageWithTags_switch tagMask pkgInfo e
  = if mask_lookup tagMask (Tag (Info e)) then
      match entryValue e with
      | Return v => Return (mkPackageInfoEx (Embedded pkgInfo)
                              (<[Tag (Info e) := v]> (TagsMap pkgInfo)))
      | Fail _ => Return pkgInfo
      | Panics p => Panics p
      end
    else Return pkgInfo.
Proof.
  intros H. apply is_nevra_tag_false in H.
  destruct H as (H1 & H2 & H3 & H4 & H5 & H6 & H7 & H8 & H9).
  unfold getPackageWithTags_switch. cbv zeta.
  rewrite H1, H2, H3, H4, H5, H6, H7, H8, H9. reflexivity.
Qed.

(** One entry: the extended switch does to the embedded record what the
    basic switch does, fails with the same error, and can only panic
    where the basic switch has nothing to do. *)
Lemma switch_simulation (tagMask : gmap Z bool) (px : PackageInfoEx) (e : indexEntry) :
  match getPackageWithTags_switch tagMask px e with
  | Return px' => getNEVRA_switch (Embedded px) e = Return (Embedded px')
  | Fail err => getNEVRA_switch (Embedded px) e = Fail err
  | Panics _ => getNEVRA_switch (Embedded px) e = Return (Embedded px)
  end.
Proof.
  unfold getPackageWithTags_switch, getNEVRA_switch. cbv zeta. fields.
  repeat switch_step; try reflexivity.
  destruct (mask_lookup tagMask (Tag (Info e))); cbv beta iota; [|reflexivity].
  destruct (entryValue e); reflexivity.
Qed.

(** The whole loop: success and failure of [getPackageWithTags] are
    those of [getNEVRA]. *)
Lemma loop_simulation (tagMask : gmap Z bool) (l : list indexEntry) (px : PackageInfoEx) :
  match for_range (getPackageWithTags_switch tagMask) px l with
  | Return px' => for_range getNEVRA_switch (Embedded px) l = Return (Embedded px')
  | Fail err => for_range getNEVRA_switch (Embedded px) l = Fail err
  | Panics _ => True
  end.
Proof.
  revert px. induction l as [|e l IH]; intros px; simpl; [reflexivity|].
  pose proof (switch_simulation tagMask px e) as Hsim.
  destruct (getPackageWithTags_switch tagMask px e) as [px'| |]; rewrite ?Hsim; [|reflexivity|exact I].
  apply IH.
Qed.

Lemma slice_to_None (s : slice) (high : Z) :
  0 <= high -> (slice_to s high = None <-> cap s < high).
Proof.
  intros H0. unfold slice_to.
  destruct (Z.leb_spec 0 high); [|lia].
  destruct (Z.leb_spec high (cap s)); simpl; split; intros; try lia; congruence.
Qed.

Lemma len_le_cap (s : slice) : len s <= cap s.
Proof. unfold len, cap. rewrite length_app. lia. Qed.

(** Reslicing within the length keeps a prefix of the visible bytes. *)
Lemma slice_to_within (s : slice) (high : Z) :
  0 <= high <= len s ->
  exists s', slice_to s high = Some s' /\ view s' = take (Z.to_nat high) (view s).
Proof.
  intros H. pose proof (len_le_cap s). unfold slice_to.
  destruct (Z.leb_spec 0 high); [|lia].
  destruct (Z.leb_spec high (cap s)); [|lia].
  simpl. eexists; split; [reflexivity|]. simpl.
  unfold len in H. apply take_app_le. lia.
Qed.

Ltac type_constants :=
  unfold RPM_NULL_TYPE, RPM_CHAR_TYPE, RPM_INT8_TYPE, RPM_INT16_TYPE,
    RPM_INT32_TYPE, RPM_INT64_TYPE, RPM_STRING_TYPE, RPM_BIN_TYPE,
    RPM_STRING_ARRAY_TYPE, RPM_I18NSTRING_TYPE in *.

(** The one place where [entryValue] can panic: [entry.Data[:count]]
    of a BIN entry outside the region interval, with [count] beyond the
    capacity. *)
Lemma entryValue_panics (e : indexEntry) (p : panic) :
  entryValue e = Panics p <->
  Typ (Info e) = RPM_BIN_TYPE /\ region_tag (Tag (Info e)) = false /\
  cap (Data e) < Z.of_N (Count (Info e)) /\
  p = SliceBoundsOutOfRange (Z.of_N (Count (Info e))) (cap (Data e)).
Proof.
  unfold entryValue, region_tag, RPMTAG_HEADERIMAGE, RPMTAG_HEADERREGIONS. cbv zeta.
  pose proof (slice_to_None (Data e) (Z.of_N (Count (Info e))) ltac:(lia)) as Hs.
  repeat match goal with
  | |- context [N.eqb ?a ?b] => destruct (N.eqb_spec a b); cbn [orb]
  end;
  repeat match goal with
  | |- context [Binary.Read_uint8 ?r] => destruct (Binary.Read_uint8 r) as [[?|?] ?]
  | |- context [Binary.Read_uint ?n ?r] => destruct (Binary.Read_uint n r) as [[?|?] ?]
  end;
  try (split; [discriminate | intros (Hty & _); type_constants; congruence]).
  destruct ((HEADER_IMAGE <=? Tag (Info e)) && (Tag (Info e) <? HEADER_REGIONS)).
  - split; [discriminate | intros (_ & ? & _); discriminate].
  - destruct (slice_to (Data e) (Z.of_N (Count (Info e)))) eqn:E.
    + split; [discriminate|]. intros (_ & _ & Hc & _).
      apply Hs in Hc. congruence.
    + split.
      * intros [= <-]. repeat split; auto. apply Hs. reflexivity.
      * intros (_ & _ & _ & ->). reflexivity.
Qed.

Ltac switch_step_eq :=
  match goal with
  | |- context [if Z.eqb ?a ?b then _ else _] => destruct (Z.eqb a b) eqn:?; cbv beta iota
  | |- context [N.eqb ?a ?b] => destruct (N.eqb a b) eqn:?; cbv beta iota delta [negb]
  | |- context [if String.eqb ?a ?b then _ else _] => destruct (String.eqb a b); cbv beta iota
  | |- context [Binary.Read_int32 ?r] =>
      destruct (Binary.Read_int32 r) as [[?|?] ?]; cbv beta iota
  end.

(** [getPackageWithTags] panics on an entry exactly when the entry is
    requested, outside the nine tags, and [entryValue] panics on it. *)
Lemma getPackageWithTags_switch_panics (tagMask : gmap Z bool)
  (px : PackageInfoEx) (e : indexEntry) (p : panic) :
  getPackageWithTags_switch tagMask px e = Panics p <->
  is_nevra_tag (Tag (Info e)) = false /\
  mask_lookup tagMask (Tag (Info e)) = true /\ entryValue e = Panics p.
Proof.
  split.
  - unfold getPackageWithTags_switch. cbv zeta. fields.
    repeat switch_step_eq; try discriminate.
    intros H. split.
    + unfold is_nevra_tag, nevra_tags. cbn [existsb].
      repeat match goal with H : (_ =? _) = false |- _ => rewrite H; clear H end.
      reflexivity.
    + destruct (mask_lookup tagMask (Tag (Info e))); [|discriminate].
      destruct (entryValue e); try discriminate. split; [reflexivity|congruence].
  - intros (Hn & Hm & Hv). rewrite getPackageWithTags_switch_other by exact Hn.
    rewrite Hm, Hv. reflexivity.
Qed.

(** Under the bound on requested BIN entries the loop never panics. *)
Lemma loop_no_panic (tagMask : gmap Z bool) (l : list indexEntry) (px : PackageInfoEx) :
  bin_counts_ok tagMask l = true ->
  forall p, for_range (getPackageWithTags_switch tagMask) px l <> Panics p.
Proof.
  revert px. induction l as [|e l IH]; intros px Hok p; simpl; [discriminate|].
  unfold bin_counts_ok in Hok. simpl in Hok. apply andb_true_iff in Hok as [He Hl].
  destruct (getPackageWithTags_switch tagMask px e) as [px'|err|q] eqn:E.
  - apply IH. exact Hl.
  - discriminate.
  - exfalso. apply getPackageWithTags_switch_panics in E as (_ & Hm & Hv).
    apply entryValue_panics in Hv as (Hty & Hreg & Hcap & _).
    unfold bin_count_ok in He. rewrite Hm, Hty, Hreg in He. simpl in He.
    apply Z.leb_le in He. pose proof (len_le_cap (Data e)). lia.
Qed.

(** [getNEVRA]'s switch has no panicking operation: [TrimRight] and
    [binary.Read] are total and report a short read as an error. *)
Lemma getNEVRA_switch_total (p : PackageInfo) (e : indexEntry) :
  (exists p', getNEVRA_switch p e = Return p') \/
  (exists err, getNEVRA_switch p e = Fail err).
Proof.
  unfold getNEVRA_switch. cbv zeta. fields.
  repeat switch_step; eauto.
Qed.

Lemma getNEVRA_loop_total (l : list indexEntry) (p : PackageInfo) :
  (exists p', for_range getNEVRA_switch p l = Return p') \/
  (exists err, for_range getNEVRA_switch p l = Fail err).
Proof.
  revert p. induction l as [|e l IH]; intros p; simpl; [eauto|].
  destruct (getNEVRA_switch_total p e) as [[p' ->]|[err ->]]; eauto.
Qed.

(** A recognized tag with a type other than the required one makes the
    basic switch fail, whatever the record so far. *)
Lemma getNEVRA_switch_mismatch (p : PackageInfo) (e : indexEntry) :
  is_nevra_tag (Tag (Info e)) = true ->
  Typ (Info e) <> required_type (Tag (Info e)) ->
  exists err, getNEVRA_switch p e = Fail err.
Proof.
  intros Hn Hty. unfold getNEVRA_switch. cbv zeta.
  repeat match goal with
  | |- context [if Z.eqb ?a ?b then _ else _] =>
      destruct (Z.eqb_spec a b) as [Heq|?];
      [rewrite Heq in Hty; vm_compute in Hty;
       destruct (N.eqb_spec (Typ (Info e)) (required_type b)) as [E|E];
       vm_compute in E; [congruence|];
       match goal with |- context [N.eqb ?x ?y] =>
         destruct (N.eqb_spec x y) as [E'|E']; vm_compute in E'; [congruence|]
       end; cbn [negb]; eauto |]
  end.
  exfalso. unfold is_nevra_tag, nevra_tags in Hn. cbn [existsb] in Hn.
  repeat match goal with
  | H : Tag (Info e) <> _ |- _ => apply Z.eqb_neq in H; rewrite H in Hn; clear H
  end.
  discriminate Hn.
Qed.

Lemma getNEVRA_loop_mismatch (l : list indexEntry) (e : indexEntry) (p : PackageInfo) :
  In e l ->
  is_nevra_tag (Tag (Info e)) = true ->
  Typ (Info e) <> required_type (Tag (Info e)) ->
  exists err, for_range getNEVRA_switch p l = Fail err.
Proof.
  intros Hin Hn Hty. revert p.
  induction l as [|e' l IH]; intros p; [destruct Hin|].
  simpl. destruct Hin as [->|Hin].
  - destruct (getNEVRA_switch_mismatch p e Hn Hty) as [err ->]. eauto.
  - destruct (getNEVRA_switch_total p e') as [[p' ->]|[err ->]]; eauto.
Qed.

(** ** Which entry decides a field *)

Ltac preserved :=
  let H := fresh in
  let Hne := fresh in
  intros Hne; unfold getNEVRA_switch; cbv zeta; fields;
  repeat switch_step_eq; intros H; try discriminate H;
  injection H as <-; fields; try reflexivity;
  exfalso; apply Hne, Z.eqb_eq; assumption.

Lemma switch_keeps_SourceRpm (p p' : PackageInfo) (e : indexEntry) :
  Tag (Info e) <> RPMTAG_SOURCERPM ->
  getNEVRA_switch p e = Return p' -> SourceRpm p' = SourceRpm p.
Proof. preserved. Qed.

Lemma switch_keeps_License (p p' : PackageInfo) (e : indexEntry) :
  Tag (Info e) <> RPMTAG_LICENSE ->
  getNEVRA_switch p e = Return p' -> License p' = License p.
Proof. preserved. Qed.

Lemma switch_keeps_Vendor (p p' : PackageInfo) (e : indexEntry) :
  Tag (Info e) <> RPMTAG_VENDOR ->
  getNEVRA_switch p e = Return p' -> Vendor p' = Vendor p.
Proof. preserved. Qed.

Lemma switch_keeps_Epoch (p p' : PackageInfo) (e : indexEntry) :
  Tag (Info e) <> RPMTAG_EPOCH ->
  getNEVRA_switch p e = Return p' -> Epoch p' = Epoch p.
Proof. preserved. Qed.

Lemma switch_keeps_Size (p p' : PackageInfo) (e : indexEntry) :
  Tag (Info e) <> RPMTAG_SIZE ->
  getNEVRA_switch p e = Return p' -> Size p' = Size p.
Proof. preserved. Qed.

(** A field that no entry of the list can touch comes out of the loop
    as it went in. *)
Lemma loop_keeps {A : Type} (field : PackageInfo -> A) (tag : TAG_ID) :
  (forall p p' e, Tag (Info e) <> tag ->
     getNEVRA_switch p e = Return p' -> field p' = field p) ->
  forall l p p', tag_absent tag l = true ->
    for_range getNEVRA_switch p l = Return p' -> field p' = field p.
Proof.
  intros Hkeep. induction l as [|e l IH]; intros p p' Habs Hrun; simpl in *.
  - congruence.
  - apply andb_true_iff in Habs as [He Hl].
    apply negb_true_iff, Z.eqb_neq in He.
    destruct (getNEVRA_switch p e) as [p1| |] eqn:E; try discriminate.
    rewrite (IH _ _ Hl Hrun). eapply Hkeep; eauto.
Qed.

(** The last entry with a given tag decides the field: the record the
    loop returns has the field as the switch left it at that entry. *)
Lemma loop_last_entry {A : Type} (field : PackageInfo -> A) (tag : TAG_ID)
  (l1 l2 : list indexEntry) (e : indexEntry) (p0 p : PackageInfo) :
  (forall p p' e, Tag (Info e) <> tag ->
     getNEVRA_switch p e = Return p' -> field p' = field p) ->
  tag_absent tag l2 = true ->
  for_range getNEVRA_switch p0 (l1 ++ e :: l2) = Return p ->
  exists pm p1, getNEVRA_switch pm e = Return p1 /\ field p = field p1.
Proof.
  intros Hkeep Habs Hrun. rewrite for_range_app in Hrun.
  destruct (for_range getNEVRA_switch p0 l1) as [pm| |]; try discriminate.
  simpl in Hrun.
  destruct (getNEVRA_switch pm e) as [p1| |] eqn:E; try discriminate.
  exists pm, p1. split; [exact E|].
  eapply loop_keeps; eauto.
Qed.

(** Tests between tag constants, decided by evaluation. *)
Ltac decide_tags :=
  repeat match goal with
  | |- context [if Z.eqb ?a ?b then _ else _] =>
      let v := eval vm_compute in (Z.eqb a b) in
      change (Z.eqb a b) with v; cbv beta iota
  end.

Ltac at_tag Htag :=
  unfold getNEVRA_switch; cbv zeta; rewrite Htag; decide_tags; fields.

Lemma normalize_none_cases (s : string) (p : PackageInfo)
  (set : string -> PackageInfo -> PackageInfo) :
  (if String.eqb s "(none)" then Return (set EmptyString p) else Return (set s p))
  = Return (set (normalize_none s) p).
Proof. unfold normalize_none. destruct (String.eqb s "(none)"); reflexivity. Qed.

(** What the switch does at each of the three sentinel-carrying tags. *)
Lemma switch_at_SourceRpm (p : PackageInfo) (e : indexEntry) :
  Tag (Info e) = RPMTAG_SOURCERPM ->
  getNEVRA_switch p e
  = if (Typ (Info e) =? RPM_STRING_TYPE)%N
    then Return (with_SourceRpm (normalize_none (trimmed e)) p)
    else Fail (New "invalid tag sourcerpm").
Proof.
  intros Htag. at_tag Htag.
  destruct (Typ (Info e) =? RPM_STRING_TYPE)%N; cbn [negb]; [|reflexivity].
  apply (normalize_none_cases (trimmed e) p with_SourceRpm).
Qed.

Lemma switch_at_License (p : PackageInfo) (e : indexEntry) :
  Tag (Info e) = RPMTAG_LICENSE ->
  getNEVRA_switch p e
  = if (Typ (Info e) =? RPM_STRING_TYPE)%N
    then Return (with_License (normalize_none (trimmed e)) p)
    else Fail (New "invalid tag license").
Proof.
  intros Htag. at_tag Htag.
  destruct (Typ (Info e) =? RPM_STRING_TYPE)%N; cbn [negb]; [|reflexivity].
  apply (normalize_none_cases (trimmed e) p with_License).
Qed.

Lemma switch_at_Vendor (p : PackageInfo) (e : indexEntry) :
  Tag (Info e) = RPMTAG_VENDOR ->
  getNEVRA_switch p e
  = if (Typ (Info e) =? RPM_STRING_TYPE)%N
    then Return (with_Vendor (normalize_none (trimmed e)) p)
    else Fail (New "invalid tag vendor").
Proof.
  intros Htag. at_tag Htag.
  destruct (Typ (Info e) =? RPM_STRING_TYPE)%N; cbn [negb]; [|reflexivity].
  apply (normalize_none_cases (trimmed e) p with_Vendor).
Qed.

(** What the switch does at the two integer tags: the count is not
    looked at. *)
Lemma switch_at_Epoch (p : PackageInfo) (e : indexEntry) :
  Tag (Info e) = RPMTAG_EPOCH ->
  getNEVRA_switch p e
  = if (Typ (Info e) =? RPM_INT32_TYPE)%N
    then match Binary.Read_int32 (view (Data e)) with
         | (inl err, _) => Fail (Errorf "failed to read binary (epoch)" err)
         | (inr epoch, _) => Return (with_Epoch epoch p)
         end
    else Fail (New "invalid tag epoch").
Proof.
  intros Htag. at_tag Htag.
  destruct (Typ (Info e) =? RPM_INT32_TYPE)%N; reflexivity.
Qed.

Lemma switch_at_Size (p : PackageInfo) (e : indexEntry) :
  Tag (Info e) = RPMTAG_SIZE ->
  getNEVRA_switch p e
  = if (Typ (Info e) =? RPM_INT32_TYPE)%N
    then match Binary.Read_int32 (view (Data e)) with
         | (inl err, _) => Fail (Errorf "failed to read binary (size)" err)
         | (inr size, _) => Return (with_Size size p)
         end
    else Fail (New "invalid tag size").
Proof.
  intros Htag. at_tag Htag.
  destruct (Typ (Info e) =? RPM_INT32_TYPE)%N; reflexivity.
Qed.

(** A successful [binary.Read] of an [int32] had four bytes to read. *)
Lemma Read_int32_inv (r : list byte) (v : Z) (r' : list byte) :
  Binary.Read_int32 r = (inr v, r') ->
  exists b0 b1 b2 b3, r = b0 :: b1 :: b2 :: b3 :: r' /\ v = signed_be32 b0 b1 b2 b3.
Proof.
  intros H. destruct (Nat.lt_ge_cases (length r) 4) as [Hlt|Hge].
  - destruct (Read_int32_short r Hlt) as [err E]. congruence.
  - destruct r as [|b0 [|b1 [|b2 [|b3 rest]]]]; simpl in Hge; try lia.
    rewrite Read_int32_four in H. injection H as <- <-. eauto 6.
Qed.

(** ** The tags map *)

(** An entry only ever writes the map at its own tag. *)
Lemma switch_TagsMap_other (tagMask : gmap Z bool) (px px' : PackageInfoEx)
  (e : indexEntry) (t : TAG_ID) :
  Tag (Info e) <> t ->
  getPackageWithTags_switch tagMask px e = Return px' ->
  TagsMap px' !! t = TagsMap px !! t.
Proof.
  intros Hne. unfold getPackageWithTags_switch. cbv zeta. fields.
  repeat switch_step; try (intros [= <-]; reflexivity); try discriminate.
  destruct (mask_lookup tagMask (Tag (Info e))); [|intros [= <-]; reflexivity].
  destruct (entryValue e); intros [= <-]; [|reflexivity].
  cbn [TagsMap]. apply lookup_insert_ne. exact Hne.
Qed.

Lemma loop_TagsMap_other (tagMask : gmap Z bool) (l : list indexEntry) (t : TAG_ID) :
  tag_absent t l = true ->
  forall px px', for_range (getPackageWithTags_switch tagMask) px l = Return px' ->
  TagsMap px' !! t = TagsMap px !! t.
Proof.
  induction l as [|e l IH]; intros Habs px px' Hrun; simpl in *.
  - congruence.
  - apply andb_true_iff in Habs as [He Hl].
    apply negb_true_iff, Z.eqb_neq in He.
    destruct (getPackageWithTags_switch tagMask px e) as [p1| |] eqn:E; try discriminate.
    rewrite (IH Hl _ _ Hrun). eapply switch_TagsMap_other; eauto.
Qed.

(** A requested entry outside the nine tags whose value fails to decode
    leaves the state as it was. *)
Lemma switch_decode_failure (tagMask : gmap Z bool) (px : PackageInfoEx)
  (e : indexEntry) (err : error) :
  is_nevra_tag (Tag (Info e)) = false ->
  entryValue e = Fail err ->
  getPackageWithTags_switch tagMask px e = Return px.
Proof.
  intros Hn Hv. rewrite getPackageWithTags_switch_other by exact Hn.
  rewrite Hv. destruct (mask_lookup tagMask (Tag (Info e))); reflexivity.
Qed.

(** A requested entry outside the nine tags whose value decodes is
    stored under its tag. *)
Lemma switch_decode_success (tagMask : gmap Z bool) (px : PackageInfoEx)
  (e : indexEntry) (v : value) :
  is_nevra_tag (Tag (Info e)) = false ->
  mask_lookup tagMask (Tag (Info e)) = true ->
  entryValue e = Return v ->
  getPackageWithTags_switch tagMask px e
  = Return (mkPackageInfoEx (Embedded px) (<[Tag (Info e) := v]> (TagsMap px))).
Proof.
  intros Hn Hm Hv. rewrite getPackageWithTags_switch_other by exact Hn.
  rewrite Hm, Hv. reflexivity.
Qed.

Lemma tag_absent_app (t : TAG_ID) (l1 l2 : list indexEntry) :
  tag_absent t (l1 ++ l2) = tag_absent t l1 && tag_absent t l2.
Proof. unfold tag_absent. apply forallb_app. Qed.

(** ** Splitting on NUL *)

Lemma genSplit_nonempty (s : list byte) (n : Z) : Bytes.genSplit s n <> [].
Proof.
  revert n. induction s as [|b t IH]; intros n; simpl; [discriminate|].
  destruct ((1 <? n) && Bytes.is_NUL b); [discriminate|].
  destruct (Bytes.genSplit t n); discriminate.
Qed.

(** With a limit of one nothing is cut. *)
Lemma genSplit_one (s : list byte) : Bytes.genSplit s 1 = [s].
Proof.
  induction s as [|b t IH]; simpl; [reflexivity|]. rewrite IH. reflexivity.
Qed.

(** The pieces are a split of the data: joined with NUL they give it back. *)
Lemma join_genSplit (s : list byte) (n : Z) : join_NUL (Bytes.genSplit s n) = s.
Proof.
  revert n. induction s as [|b t IH]; intros n; simpl; [reflexivity|].
  destruct (1 <? n) eqn:Hn; simpl.
  - destruct (Bytes.is_NUL b) eqn:Hb.
    + apply is_NUL_true in Hb. subst b.
      pose proof (genSplit_nonempty t (n - 1)) as Hne. specialize (IH (n - 1)).
      destruct (Bytes.genSplit t (n - 1)) as [|p ps]; [congruence|].
      simpl in *. congruence.
    + specialize (IH n). pose proof (genSplit_nonempty t n) as Hne.
      destruct (Bytes.genSplit t n) as [|p ps]; [congruence|].
      destruct ps; simpl in *; congruence.
  - specialize (IH n). pose proof (genSplit_nonempty t n) as Hne.
    destruct (Bytes.genSplit t n) as [|p ps]; [congruence|].
    destruct ps; simpl in *; congruence.
Qed.

Lemma count_NUL_cons (b : byte) (t : list byte) :
  count_NUL (b :: t) = ((if Bytes.is_NUL b then 1 else 0) + count_NUL t)%nat.
Proof. unfold count_NUL. simpl. destruct (Bytes.is_NUL b); reflexivity. Qed.

(** The number of pieces: the limit, or one more than the NULs there are. *)
Lemma genSplit_length (s : list byte) (n : Z) :
  1 <= n ->
  length (Bytes.genSplit s n) = Nat.min (Z.to_nat n) (S (count_NUL s)).
Proof.
  revert n. induction s as [|b t IH]; intros n Hn.
  - simpl. unfold count_NUL. simpl. lia.
  - cbn [Bytes.genSplit]. rewrite count_NUL_cons.
    destruct (Z.ltb_spec 1 n) as [H1|H1]; cbn [andb].
    + destruct (Bytes.is_NUL b).
      * cbn [length]. rewrite IH by lia. lia.
      * specialize (IH n Hn). pose proof (genSplit_nonempty t n).
        destruct (Bytes.genSplit t n); [congruence|]. cbn [length] in *. lia.
    + specialize (IH n Hn). pose proof (genSplit_nonempty t n).
      destruct (Bytes.genSplit t n); [congruence|]. cbn [length] in *.
      destruct (Bytes.is_NUL b); lia.
Qed.

(** When the limit is not reached no piece holds a NUL byte. *)
Lemma genSplit_clean (s : list byte) (n : Z) :
  (count_NUL s < Z.to_nat n)%nat ->
  Forall (fun p => count_NUL p = 0%nat) (Bytes.genSplit s n).
Proof.
  revert n. induction s as [|b t IH]; intros n Hn.
  - repeat constructor.
  - cbn [Bytes.genSplit]. rewrite count_NUL_cons in Hn.
    destruct (Z.ltb_spec 1 n) as [H1|H1]; cbn [andb].
    + destruct (Bytes.is_NUL b) eqn:Hb.
      * constructor; [reflexivity|]. apply IH. lia.
      * specialize (IH n ltac:(lia)). pose proof (genSplit_nonempty t n).
        destruct (Bytes.genSplit t n) as [|p ps]; [congruence|].
        inversion IH; subst. constructor; [|assumption].
        rewrite count_NUL_cons, Hb. simpl. assumption.
    + destruct (Bytes.is_NUL b) eqn:Hb; [lia|].
      specialize (IH n ltac:(lia)). pose proof (genSplit_nonempty t n).
      destruct (Bytes.genSplit t n) as [|p ps]; [congruence|].
      inversion IH; subst. constructor; [|assumption].
      rewrite count_NUL_cons, Hb. simpl. assumption.
Qed.

(** When the data holds as many NULs as the limit, or more, the last
    piece is an unsplit remainder that still holds one. *)
Lemma genSplit_last (s : list byte) (n : Z) :
  1 <= n -> (Z.to_nat n <= count_NUL s)%nat ->
  exists front rest,
    Bytes.genSplit s n = front ++ [rest] /\ (0 < count_NUL rest)%nat.
Proof.
  revert n. induction s as [|b t IH]; intros n Hn Hc.
  - unfold count_NUL in Hc. simpl in Hc. lia.
  - destruct (Z.eq_dec n 1) as [->|Hn1].
    { rewrite genSplit_one. exists [], (b :: t). split; [reflexivity|]. lia. }
    cbn [Bytes.genSplit]. rewrite count_NUL_cons in Hc.
    destruct (Z.ltb_spec 1 n) as [H1|H1]; [|lia]. cbn [andb].
    destruct (Bytes.is_NUL b) eqn:Hb.
    + destruct (IH (n - 1) ltac:(lia) ltac:(lia)) as (front & rest & E & Hr).
      exists ([] :: front), rest. rewrite E. split; [reflexivity|assumption].
    + destruct (IH n Hn ltac:(simpl in Hc; lia)) as (front & rest & E & Hr).
      rewrite E. destruct front as [|f fs]; simpl.
      * exists [], (b :: rest). split; [reflexivity|].
        rewrite count_NUL_cons. lia.
      * exists ((b :: f) :: fs), rest. split; [reflexivity|assumption].
Qed.

Lemma fill_values_length (values : list string) (subStrings : list (list byte)) :
  length (fill_values values subStrings) = length values.
Proof.
  revert subStrings. induction values as [|v vs IH]; intros [|s ss]; simpl; auto.
Qed.

(** The loop copies the common prefix and leaves the rest empty. *)
Lemma fill_values_replicate (n : nat) (subStrings : list (list byte)) :
  fill_values (replicate n EmptyString) subStrings
  = take n (map string_of_list_byte subStrings)
    ++ replicate (n - length subStrings) EmptyString.
Proof.
  revert subStrings. induction n as [|n IH]; intros [|s ss]; simpl; try reflexivity.
  rewrite IH. reflexivity.
Qed.

Lemma has_NUL_string (p : list byte) :
  has_NUL (string_of_list_byte p) = true <-> (0 < count_NUL p)%nat.
Proof.
  unfold has_NUL. rewrite list_byte_of_string_of_list_byte.
  induction p as [|b t IH]; simpl.
  - unfold count_NUL. simpl. split; [discriminate|lia].
  - rewrite count_NUL_cons. destruct (Bytes.is_NUL b); simpl; [split; [lia|reflexivity]|].
    exact IH.
Qed.

(** ** entryValue, type by type *)

Lemma SplitN_positive (s : list byte) (n : Z) :
  0 < n -> Bytes.SplitN s n = Bytes.genSplit s n.
Proof.
  intros H. unfold Bytes.SplitN.
  destruct (Z.eqb_spec n 0); [lia|]. destruct (Z.ltb_spec n 0); [lia|reflexivity].
Qed.

(** The result always has [count] elements. *)
Lemma split_strings_length (e : indexEntry) :
  length (split_strings e) = N.to_nat (Count (Info e)).
Proof.
  unfold split_strings. cbv zeta. rewrite fill_values_length.
  apply length_replicate.
Qed.

Lemma split_strings_zero (e : indexEntry) :
  Count (Info e) = 0%N -> split_strings e = [].
Proof. intros H. unfold split_strings. rewrite H. reflexivity. Qed.

(** Fewer NULs than [count]: the NUL-free pieces of the data, in order,
    then empty strings up to [count]. *)
Lemma split_strings_short (e : indexEntry) :
  (count_NUL (view (Data e)) < N.to_nat (Count (Info e)))%nat ->
  exists pieces,
    join_NUL pieces = view (Data e) /\
    Forall (fun p => count_NUL p = 0%nat) pieces /\
    length pieces = S (count_NUL (view (Data e))) /\
    split_strings e
    = map string_of_list_byte pieces
      ++ replicate (N.to_nat (Count (Info e)) - length pieces) EmptyString.
Proof.
  intros H. exists (Bytes.genSplit (view (Data e)) (Z.of_N (Count (Info e)))).
  assert (Hlen : length (Bytes.genSplit (view (Data e)) (Z.of_N (Count (Info e))))
                 = S (count_NUL (view (Data e)))).
  { rewrite genSplit_length by lia. lia. }
  split; [apply join_genSplit|]. split; [apply genSplit_clean; lia|].
  split; [exact Hlen|].
  unfold split_strings. cbv zeta. rewrite SplitN_positive by lia.
  rewrite fill_values_replicate. rewrite take_ge; [reflexivity|].
  rewrite length_map. lia.
Qed.

(** As many NULs as [count], or more: the last string is the unsplit
    remainder and keeps a NUL byte. *)
Lemma split_strings_remainder (e : indexEntry) :
  (1 <= N.to_nat (Count (Info e)) <= count_NUL (view (Data e)))%nat ->
  exists front rest,
    split_strings e = front ++ [rest] /\ has_NUL rest = true.
Proof.
  intros H.
  destruct (genSplit_last (view (Data e)) (Z.of_N (Count (Info e))))
    as (front & rest & E & Hr); [lia|lia|].
  pose proof (genSplit_length (view (Data e)) (Z.of_N (Count (Info e))) ltac:(lia)) as Hlen.
  exists (map string_of_list_byte front), (string_of_list_byte rest).
  split; [|apply has_NUL_string; exact Hr].
  unfold split_strings. cbv zeta. rewrite SplitN_positive by lia.
  rewrite fill_values_replicate, E in *. rewrite take_ge by (rewrite length_map; lia).
  replace (N.to_nat (Count (Info e)) - length (front ++ [rest]))%nat with 0%nat by lia.
  rewrite map_app. simpl. apply app_nil_r.
Qed.

Lemma entryValue_strings (e : indexEntry) :
  Typ (Info e) = RPM_STRING_ARRAY_TYPE \/ Typ (Info e) = RPM_I18NSTRING_TYPE ->
  entryValue e = Return (Strs (split_strings e)).
Proof.
  intros [H|H]; unfold entryValue; cbv zeta; rewrite H; reflexivity.
Qed.

(** CHAR and INT8: two reads of one byte; the value is the second byte,
    and data of fewer than two bytes is an error. *)
Lemma entryValue_char (e : indexEntry) :
  Typ (Info e) = RPM_CHAR_TYPE \/ Typ (Info e) = RPM_INT8_TYPE ->
  entryValue e
  = match view (Data e) with
    | _ :: second :: _ => Return (Uint8 second)
    | _ => Fail (Errorf read_failed EOF)
    end.
Proof.
  intros [H|H]; unfold entryValue, Bytes.NewReader; cbv zeta; rewrite H;
    cbn [N.eqb Pos.eqb orb RPM_NULL_TYPE RPM_CHAR_TYPE RPM_INT8_TYPE];
    destruct (view (Data e)) as [|b0 [|b1 rest]]; reflexivity.
Qed.

(** BIN inside the region interval: the switch case has nothing but a
    TODO, and the function ends in [ErrNotSupport]. *)
Lemma entryValue_bin_region (e : indexEntry) :
  Typ (Info e) = RPM_BIN_TYPE -> region_tag (Tag (Info e)) = true ->
  entryValue e = Fail ErrNotSupport.
Proof.
  intros Hty Hreg. unfold entryValue. cbv zeta. rewrite Hty.
  unfold region_tag in Hreg. unfold RPMTAG_HEADERIMAGE, RPMTAG_HEADERREGIONS.
  rewrite Hreg. reflexivity.
Qed.

(** BIN outside the interval, count within the data: the hex string of
    the first [count] bytes. *)
Lemma entryValue_bin_hex (e : indexEntry) :
  Typ (Info e) = RPM_BIN_TYPE -> region_tag (Tag (Info e)) = false ->
  Z.of_N (Count (Info e)) <= len (Data e) ->
  entryValue e
  = Return (Str (Hex.EncodeToString (take (N.to_nat (Count (Info e))) (view (Data e))))).
Proof.
  intros Hty Hreg Hc. unfold entryValue. cbv zeta. rewrite Hty.
  unfold region_tag in Hreg. unfold RPMTAG_HEADERIMAGE, RPMTAG_HEADERREGIONS.
  rewrite Hreg. cbn [N.eqb Pos.eqb orb RPM_NULL_TYPE RPM_CHAR_TYPE RPM_INT8_TYPE
    RPM_INT16_TYPE RPM_INT32_TYPE RPM_INT64_TYPE RPM_STRING_TYPE RPM_BIN_TYPE].
  destruct (slice_to_within (Data e) (Z.of_N (Count (Info e)))) as (s' & -> & Hv); [lia|].
  rewrite Hv. replace (Z.to_nat (Z.of_N (Count (Info e)))) with (N.to_nat (Count (Info e))) by lia.
  reflexivity.
Qed.

(** Between the length and the capacity the reslice does not panic: it
    reaches the bytes that follow the data in the backing array. *)
Example entryValue_bin_reaches_capacity :
  len (Data sigmd5_shared) = 2 /\ cap (Data sigmd5_shared) = 4 /\
  entryValue sigmd5_shared = Return (Str "deadbeef").
Proof. repeat split. Qed.

Lemma hex_digits_of_byte (v : byte) :
  is_lower_hex (Hex.digit (N.shiftr (Byte.to_N v) 4))
  && is_lower_hex (Hex.digit (N.land (Byte.to_N v) 15)) = true.
Proof. destruct v; reflexivity. Qed.

(** [EncodeToString] gives two characters per byte, each in [0-9a-f]. *)
Lemma EncodeToString_lower_hex (src : list byte) :
  let out := list_byte_of_string (Hex.EncodeToString src) in
  length out = (2 * length src)%nat /\ forallb is_lower_hex out = true.
Proof.
  cbv zeta. unfold Hex.EncodeToString. rewrite list_byte_of_string_of_list_byte.
  induction src as [|v t [IHl IHd]]; [split; reflexivity|].
  cbn [flat_map app length forallb]. split; [lia|].
  pose proof (hex_digits_of_byte v) as H. apply andb_true_iff in H as [-> ->].
  exact IHd.
Qed.

Lemma hex_decode_of_byte (v : byte) (rest : list byte) (bs : list byte) :
  hex_decode rest = Some bs ->
  hex_decode (Hex.digit (N.shiftr (Byte.to_N v) 4)
              :: Hex.digit (N.land (Byte.to_N v) 15) :: rest) = Some (v :: bs).
Proof.
  intros H. cbn [hex_decode]. rewrite H. destruct v; reflexivity.
Qed.

(** The hex string reads back as the bytes it was made from. *)
Lemma hex_decode_EncodeToString (src : list byte) :
  hex_decode (list_byte_of_string (Hex.EncodeToString src)) = Some src.
Proof.
  unfold Hex.EncodeToString. rewrite list_byte_of_string_of_list_byte.
  induction src as [|v t IH]; [reflexivity|].
  cbn [flat_map app]. apply hex_decode_of_byte. exact IH.
Qed.

(** ** The claims *)

(** C8. [getNEVRA] is total on every list of index entries: it never
    panics, and returns either a [PackageInfo] or an error. *)
Theorem getNEVRA_total (indexEntries : list indexEntry) :
  (exists pkgInfo, getNEVRA indexEntries = Return pkgInfo) \/
  (exists err, getNEVRA indexEntries = Fail err).
Proof. apply getNEVRA_loop_total. Qed.

(** C9. An entry whose tag is not one of the nine recognized tags does
    not affect the basic projection: with the entry inserted at any
    position, [getNEVRA] gives what it gives without it. *)
Theorem getNEVRA_ignores_other_tags (l1 l2 : list indexEntry) (e : indexEntry) :
  is_nevra_tag (Tag (Info e)) = false ->
  getNEVRA (l1 ++ e :: l2) = getNEVRA (l1 ++ l2).
Proof.
  intros H. unfold getNEVRA. apply for_range_skip.
  intros p. apply getNEVRA_switch_other. exact H.
Qed.

Lemma getNEVRA_ignores_other_tags_witness :
  is_nevra_tag (Tag (Info sigmd5)) = false /\
  getNEVRA ([name_bash] ++ sigmd5 :: [vendor_none])
  = getNEVRA ([name_bash] ++ [vendor_none]).
Proof.
  split; [reflexivity|].
  apply (getNEVRA_ignores_other_tags [name_bash] [vendor_none] sigmd5).
  reflexivity.
Defined.

(** A loop that panics does so in the body, at an entry before which
    the loop ran to a state. *)
Lemma for_range_panics_inv {S : Type} (body : S -> indexEntry -> outcome S)
  (l : list indexEntry) (st : S) (p : panic) :
  for_range body st l = Panics p ->
  exists l1 e l2 st',
    l = l1 ++ e :: l2 /\ for_range body st l1 = Return st' /\ body st' e = Panics p.
Proof.
  revert st. induction l as [|e l IH]; intros st H; simpl in H; [discriminate|].
  destruct (body st e) as [st1| |q] eqn:E; try discriminate.
  - destruct (IH st1 H) as (l1 & e' & l2 & st' & -> & Hrun & Hb).
    exists (e :: l1), e', l2, st'. simpl. rewrite E. auto.
  - injection H as ->. exists [], e, l, st. auto.
Qed.

(** C10, as stated, fails: the bound on the length is not necessary.
    A requested BIN entry whose data slice has length 2 and capacity 4
    and whose count is 4 violates [count <= len(data)], and
    [getPackageWithTags] does not panic on it: [entry.Data[:count]] is
    checked against the capacity. Nor does the call panic on an entry
    over the bound that carries one of the nine tags, or that comes
    after an entry that fails. *)
Lemma getPackageWithTags_beyond_length_without_panic :
  len (Data sigmd5_shared) = 2 /\ Count (Info sigmd5_shared) = 4%N /\
  bin_counts_ok (request [RPMTAG_SIGMD5]) [sigmd5_shared] = false /\
  getPackageWithTags [sigmd5_shared] (request [RPMTAG_SIGMD5])
  = Return (mkPackageInfoEx zero_PackageInfo {[RPMTAG_SIGMD5 := Str "deadbeef"]}) /\
  ~ (exists p, getPackageWithTags [sigmd5_shared] (request [RPMTAG_SIGMD5]) = Panics p) /\
  bin_counts_ok (request [RPMTAG_NAME]) [name_as_bin] = false /\
  getPackageWithTags [name_as_bin] (request [RPMTAG_NAME]) = Fail (New "invalid tag name") /\
  bin_counts_ok (request [RPMTAG_SIGMD5]) [name_as_int32; sigmd5_beyond] = false /\
  getPackageWithTags [name_as_int32; sigmd5_beyond] (request [RPMTAG_SIGMD5])
  = Fail (New "invalid tag name").
Proof.
  repeat (split; [reflexivity|]).
  split; [intros [p H]; vm_compute in H; discriminate H|].
  repeat (split; [reflexivity|]). reflexivity.
Qed.

(** C10, amended. [getPackageWithTags] never panics when every
    requested BIN entry with a tag outside
    [[HEADER_IMAGE, HEADER_REGIONS)] has a count no larger than the
    length of its data. The bound guards [entry.Data[:count]], which
    Go checks against the capacity: the call panics exactly when, the
    entries before it processed without error, it reaches a requested
    BIN entry with none of the nine recognized tags and a tag outside
    the interval whose count exceeds the capacity of its data (the
    length, for a slice that owns its array). *)
Theorem getPackageWithTags_total_under_bound :
  (forall (l : list indexEntry) (tagMask : gmap Z bool),
     bin_counts_ok tagMask l = true ->
     forall p, getPackageWithTags l tagMask <> Panics p) /\
  (forall (l : list indexEntry) (tagMask : gmap Z bool) (p : panic),
     getPackageWithTags l tagMask = Panics p <->
     exists (l1 : list indexEntry) (e : indexEntry) (l2 : list indexEntry)
            (px : PackageInfoEx),
       l = l1 ++ e :: l2 /\
       getPackageWithTags l1 tagMask = Return px /\
       mask_lookup tagMask (Tag (Info e)) = true /\
       is_nevra_tag (Tag (Info e)) = false /\
       Typ (Info e) = RPM_BIN_TYPE /\
       region_tag (Tag (Info e)) = false /\
       cap (Data e) < Z.of_N (Count (Info e)) /\
       p = SliceBoundsOutOfRange (Z.of_N (Count (Info e))) (cap (Data e))).
Proof.
  split.
  - intros l tagMask Hok p. unfold getPackageWithTags. apply loop_no_panic. exact Hok.
  - intros l tagMask p. unfold getPackageWithTags. split.
    + intros H. apply for_range_panics_inv in H as (l1 & e & l2 & px & -> & Hrun & Hb).
      apply getPackageWithTags_switch_panics in Hb as (Hn & Hm & Hv).
      apply entryValue_panics in Hv as (Hty & Hreg & Hcap & ->).
      exists l1, e, l2, px. repeat split; assumption.
    + intros (l1 & e & l2 & px & -> & Hpre & Hm & Hn & Hty & Hreg & Hcap & ->).
      rewrite for_range_app, Hpre. simpl.
      replace (getPackageWithTags_switch tagMask px e)
        with (@Panics PackageInfoEx
                (SliceBoundsOutOfRange (Z.of_N (Count (Info e))) (cap (Data e))));
        [reflexivity|].
      symmetry. apply getPackageWithTags_switch_panics.
      repeat split; try assumption. apply entryValue_panics. auto.
Qed.

Lemma getPackageWithTags_total_under_bound_witness :
  (bin_counts_ok (request [RPMTAG_SIGMD5]) [name_bash; sigmd5] = true /\
   forall p, getPackageWithTags [name_bash; sigmd5] (request [RPMTAG_SIGMD5]) <> Panics p) /\
  (cap (Data sigmd5_beyond) < Z.of_N (Count (Info sigmd5_beyond)) /\
   getPackageWithTags ([name_bash] ++ sigmd5_beyond :: [vendor_none]) (request [RPMTAG_SIGMD5])
   = Panics (SliceBoundsOutOfRange 16 4)).
Proof.
  destruct getPackageWithTags_total_under_bound as [Hsafe Hexact].
  split; split.
  - reflexivity.
  - apply Hsafe. reflexivity.
  - reflexivity.
  - apply (Hexact ([name_bash] ++ sigmd5_beyond :: [vendor_none])
             (request [RPMTAG_SIGMD5]) (SliceBoundsOutOfRange 16 4)).
    exists [name_bash], sigmd5_beyond, [vendor_none],
      (mkPackageInfoEx (with_Name "bash" zero_PackageInfo) ∅).
    repeat split.
Defined.

(** C5, as stated, fails: on a requested BIN entry whose count is
    beyond its data [getNEVRA] succeeds and [getPackageWithTags]
    panics, so it does not succeed exactly when [getNEVRA] does. *)
Lemma getPackageWithTags_panics_where_getNEVRA_succeeds :
  getNEVRA [sigmd5_beyond] = Return zero_PackageInfo /\
  getPackageWithTags [sigmd5_beyond] (request [RPMTAG_SIGMD5])
  = Panics (SliceBoundsOutOfRange 16 4) /\
  ~ ((exists px, getPackageWithTags [sigmd5_beyond] (request [RPMTAG_SIGMD5]) = Return px)
     <-> (exists p, getNEVRA [sigmd5_beyond] = Return p)).
Proof.
  split; [reflexivity|]. split; [reflexivity|].
  intros [_ H]. destruct H as [px Hpx]; [eexists; reflexivity|].
  vm_compute in Hpx. discriminate Hpx.
Qed.

(** C5, amended. For every entry list and requested tag set in which
    every requested BIN entry with a tag outside
    [[HEADER_IMAGE, HEADER_REGIONS)] has a count no larger than the
    length of its data: [getPackageWithTags] succeeds exactly when
    [getNEVRA] succeeds on the same list, on success the embedded
    [PackageInfo] is the record [getNEVRA] returns, and they fail with
    the same error. *)
Theorem getPackageWithTags_refines_getNEVRA
  (indexEntries : list indexEntry) (tagMask : gmap Z bool) :
  bin_counts_ok tagMask indexEntries = true ->
  ((exists px, getPackageWithTags indexEntries tagMask = Return px)
   <-> (exists p, getNEVRA indexEntries = Return p)) /\
  (forall px, getPackageWithTags indexEntries tagMask = Return px ->
     getNEVRA indexEntries = Return (Embedded px)) /\
  (forall err, getPackageWithTags indexEntries tagMask = Fail err
     <-> getNEVRA indexEntries = Fail err).
Proof.
  intros Hok. unfold getPackageWithTags, getNEVRA.
  pose proof (loop_simulation tagMask indexEntries (mkPackageInfoEx zero_PackageInfo ∅)) as Hsim.
  pose proof (loop_no_panic tagMask indexEntries (mkPackageInfoEx zero_PackageInfo ∅) Hok) as Hnp.
  cbn [Embedded] in Hsim.
  destruct (for_range (getPackageWithTags_switch tagMask)
              (mkPackageInfoEx zero_PackageInfo ∅) indexEntries) as [px|err|q].
  - rewrite Hsim. split; [split; eauto|]. split.
    + intros px' [= <-]. reflexivity.
    + intros err. split; discriminate.
  - rewrite Hsim. split; [split; intros [? ?]; discriminate|]. split.
    + discriminate.
    + intros err'. split; congruence.
  - exfalso. apply (Hnp q). reflexivity.
Qed.

Lemma getPackageWithTags_refines_getNEVRA_witness :
  bin_counts_ok (request [RPMTAG_SIGMD5; RPMTAG_SUMMARY])
    [name_bash; sigmd5; summary_null; vendor_none] = true /\
  (forall px,
     getPackageWithTags [name_bash; sigmd5; summary_null; vendor_none]
       (request [RPMTAG_SIGMD5; RPMTAG_SUMMARY]) = Return px ->
     getNEVRA [name_bash; sigmd5; summary_null; vendor_none] = Return (Embedded px)).
Proof.
  split; [reflexivity|].
  apply (getPackageWithTags_refines_getNEVRA
           [name_bash; sigmd5; summary_null; vendor_none]
           (request [RPMTAG_SIGMD5; RPMTAG_SUMMARY])).
  reflexivity.
Defined.

(** C4, as stated, fails: with a requested BIN entry whose count is
    beyond its data in front of it, a NAME entry of type INT32 does not
    make the projection return an error; the call panics. *)
Lemma getPackageWithTags_panics_before_mismatch :
  In name_as_int32 [sigmd5_beyond; name_as_int32] /\
  is_nevra_tag (Tag (Info name_as_int32)) = true /\
  Typ (Info name_as_int32) <> required_type (Tag (Info name_as_int32)) /\
  getPackageWithTags [sigmd5_beyond; name_as_int32] (request [RPMTAG_SIGMD5])
  = Panics (SliceBoundsOutOfRange 16 4) /\
  ~ (exists err,
       getPackageWithTags [sigmd5_beyond; name_as_int32] (request [RPMTAG_SIGMD5])
       = Fail err).
Proof.
  split; [right; left; reflexivity|]. split; [reflexivity|].
  split; [discriminate|]. split; [reflexivity|].
  intros [err H]. vm_compute in H. discriminate H.
Qed.

(** C4, amended. In [getPackageWithTags], an entry outside the nine
    recognized tags on which [entryValue] returns an error is skipped:
    the projection gives what it gives without the entry, and when no
    other entry carries the tag, the tags map has no value for it.
    Whereas if any entry bearing one of the nine recognized tags has a
    type other than the required one, the projection never succeeds,
    and it returns an error whenever every requested BIN entry with a
    tag outside [[HEADER_IMAGE, HEADER_REGIONS)] has a count no larger
    than the length of its data. *)
Theorem getPackageWithTags_failures :
  (forall (l1 l2 : list indexEntry) (e : indexEntry) (tagMask : gmap Z bool)
          (err : error),
     is_nevra_tag (Tag (Info e)) = false ->
     entryValue e = Fail err ->
     getPackageWithTags (l1 ++ e :: l2) tagMask = getPackageWithTags (l1 ++ l2) tagMask /\
     (forall px,
        getPackageWithTags (l1 ++ e :: l2) tagMask = Return px ->
        tag_absent (Tag (Info e)) (l1 ++ l2) = true ->
        TagsMap px !! Tag (Info e) = None)) /\
  (forall (l : list indexEntry) (e : indexEntry) (tagMask : gmap Z bool),
     In e l ->
     is_nevra_tag (Tag (Info e)) = true ->
     Typ (Info e) <> required_type (Tag (Info e)) ->
     (forall px, getPackageWithTags l tagMask <> Return px) /\
     (bin_counts_ok tagMask l = true ->
      exists err, getPackageWithTags l tagMask = Fail err)).
Proof.
  split.
  - intros l1 l2 e tagMask err Hn Hv.
    assert (Hskip : getPackageWithTags (l1 ++ e :: l2) tagMask
                    = getPackageWithTags (l1 ++ l2) tagMask).
    { unfold getPackageWithTags. apply for_range_skip.
      intros px. eapply switch_decode_failure; eauto. }
    split; [exact Hskip|].
    intros px Hrun Habs. rewrite Hskip in Hrun. unfold getPackageWithTags in Hrun.
    rewrite (loop_TagsMap_other tagMask (l1 ++ l2) (Tag (Info e)) Habs _ _ Hrun).
    apply lookup_empty.
  - intros l e tagMask Hin Hn Hty.
    destruct (getNEVRA_loop_mismatch l e zero_PackageInfo Hin Hn Hty) as [err Herr].
    pose proof (loop_simulation tagMask l (mkPackageInfoEx zero_PackageInfo ∅)) as Hsim.
    cbn [Embedded] in Hsim. unfold getPackageWithTags. split.
    + intros px Hpx. rewrite Hpx in Hsim. congruence.
    + intros Hok.
      pose proof (loop_no_panic tagMask l (mkPackageInfoEx zero_PackageInfo ∅) Hok) as Hnp.
      destruct (for_range (getPackageWithTags_switch tagMask)
                  (mkPackageInfoEx zero_PackageInfo ∅) l) as [px|err'|q].
      * congruence.
      * eauto.
      * exfalso. apply (Hnp q). reflexivity.
Qed.

Lemma getPackageWithTags_failures_witness :
  (is_nevra_tag (Tag (Info summary_null)) = false /\
   entryValue summary_null = Fail ErrNotSupport /\
   getPackageWithTags ([name_bash] ++ summary_null :: [sigmd5])
     (request [RPMTAG_SIGMD5; RPMTAG_SUMMARY])
   = getPackageWithTags ([name_bash] ++ [sigmd5])
       (request [RPMTAG_SIGMD5; RPMTAG_SUMMARY])) /\
  (In name_as_int32 [sigmd5; name_as_int32] /\
   is_nevra_tag (Tag (Info name_as_int32)) = true /\
   Typ (Info name_as_int32) <> required_type (Tag (Info name_as_int32)) /\
   bin_counts_ok (request [RPMTAG_SIGMD5]) [sigmd5; name_as_int32] = true /\
   exists err,
     getPackageWithTags [sigmd5; name_as_int32] (request [RPMTAG_SIGMD5]) = Fail err).
Proof.
  destruct getPackageWithTags_failures as [Hskip Hfail].
  split.
  - split; [reflexivity|]. split; [reflexivity|].
    apply (Hskip [name_bash] [sigmd5] summary_null
             (request [RPMTAG_SIGMD5; RPMTAG_SUMMARY]) ErrNotSupport);
      reflexivity.
  - assert (Hin : In name_as_int32 [sigmd5; name_as_int32]) by (right; left; reflexivity).
    assert (Hty : Typ (Info name_as_int32) <> required_type (Tag (Info name_as_int32)))
      by discriminate.
    split; [exact Hin|]. split; [reflexivity|]. split; [exact Hty|].
    split; [reflexivity|].
    apply (Hfail [sigmd5; name_as_int32] name_as_int32 (request [RPMTAG_SIGMD5])
             Hin eq_refl Hty).
    reflexivity.
Defined.

(** C1, the code at the failing input. The claim is that a CHAR or INT8
    entry decodes to its first data byte and that one byte of data is
    enough. [entryValue] reads a byte twice into the same variable: on
    the one-byte entry the second read hits the end of the data and the
    call returns an error, and on a two-byte entry the value is the
    second byte, not the first. *)
Theorem entryValue_char_reads_twice :
  entryValue states_one = Fail (Errorf read_failed EOF) /\
  entryValue states_two = Return (Uint8 x42) /\
  view (Data states_two) = [x41; x42].
Proof. repeat split. Qed.

(** C2, the code at the failing input. The claim is that no string of
    the result retains a NUL byte. On the data of two NUL-terminated
    strings with count 2, [bytes.SplitN] with limit 2 cuts once and the
    second string is the unsplit remainder, terminator included. *)
Theorem entryValue_string_array_keeps_NUL :
  entryValue basenames
  = Return (Strs [string_of_list_byte [x61]; string_of_list_byte [x62; x00]]) /\
  has_NUL (string_of_list_byte [x62; x00]) = true.
Proof. split; reflexivity. Qed.

(** C3, as stated, fails: for a BIN entry whose tag is in
    [[HEADER_IMAGE, HEADER_REGIONS)], here the trailer of an immutable
    region, [entryValue] yields no value; it returns [ErrNotSupport].
    And outside the interval a count beyond the data yields no hex
    string either. *)
Lemma entryValue_region_trailer_is_error :
  Typ (Info region_trailer) = RPM_BIN_TYPE /\
  region_tag (Tag (Info region_trailer)) = true /\
  entryValue region_trailer = Fail ErrNotSupport /\
  ~ (exists v, entryValue region_trailer = Return v) /\
  region_tag (Tag (Info sigmd5_beyond)) = false /\
  ~ (exists v, entryValue sigmd5_beyond = Return v).
Proof.
  repeat split; intros [v H]; vm_compute in H; discriminate H.
Qed.

(** C3, amended. For every BIN entry whose tag is not in
    [[HEADER_IMAGE(61), HEADER_REGIONS(64))] and whose count is no
    larger than the length of its data, [entryValue] yields the hex
    encoding of the first [count] bytes of the data, two characters of
    [0-9a-f] per byte that read back as those bytes; for a BIN entry
    whose tag is in that interval it returns the error
    [ErrNotSupport]. *)
Theorem entryValue_bin (e : indexEntry) :
  Typ (Info e) = RPM_BIN_TYPE ->
  (region_tag (Tag (Info e)) = false ->
   Z.of_N (Count (Info e)) <= len (Data e) ->
   exists hex,
     entryValue e = Return (Str hex) /\
     hex = Hex.EncodeToString (take (N.to_nat (Count (Info e))) (view (Data e))) /\
     length (list_byte_of_string hex) = (2 * N.to_nat (Count (Info e)))%nat /\
     forallb is_lower_hex (list_byte_of_string hex) = true /\
     hex_decode (list_byte_of_string hex)
     = Some (take (N.to_nat (Count (Info e))) (view (Data e)))) /\
  (region_tag (Tag (Info e)) = true -> entryValue e = Fail ErrNotSupport).
Proof.
  intros Hty. split.
  - intros Hreg Hc. eexists. split; [apply entryValue_bin_hex; assumption|].
    split; [reflexivity|].
    destruct (EncodeToString_lower_hex (take (N.to_nat (Count (Info e))) (view (Data e))))
      as [Hl Hd].
    split; [rewrite Hl, length_take; unfold len in Hc; lia|].
    split; [exact Hd|apply hex_decode_EncodeToString].
  - intros Hreg. apply entryValue_bin_region; assumption.
Qed.

Lemma entryValue_bin_witness :
  (Typ (Info sigmd5) = RPM_BIN_TYPE /\ region_tag (Tag (Info sigmd5)) = false /\
   Z.of_N (Count (Info sigmd5)) <= len (Data sigmd5) /\
   exists hex, entryValue sigmd5 = Return (Str hex) /\
     hex = Hex.EncodeToString (take (N.to_nat (Count (Info sigmd5))) (view (Data sigmd5))) /\
     length (list_byte_of_string hex) = (2 * N.to_nat (Count (Info sigmd5)))%nat /\
     forallb is_lower_hex (list_byte_of_string hex) = true /\
     hex_decode (list_byte_of_string hex)
     = Some (take (N.to_nat (Count (Info sigmd5))) (view (Data sigmd5)))) /\
  (Typ (Info region_trailer) = RPM_BIN_TYPE /\
   region_tag (Tag (Info region_trailer)) = true /\
   entryValue region_trailer = Fail ErrNotSupport).
Proof.
  split.
  - split; [reflexivity|]. split; [reflexivity|]. split; [discriminate|].
    apply (entryValue_bin sigmd5 eq_refl); [reflexivity|discriminate].
  - split; [reflexivity|]. split; [reflexivity|].
    apply (entryValue_bin region_trailer eq_refl). reflexivity.
Defined.

Lemma normalize_none_spec (s : string) :
  (s = "(none)"%string -> normalize_none s = EmptyString) /\
  (s <> "(none)"%string -> normalize_none s = s) /\
  normalize_none (normalize_none s) = normalize_none s.
Proof.
  unfold normalize_none.
  destruct (String.eqb_spec s "(none)") as [->|Hne].
  - repeat split; congruence.
  - repeat split; try congruence.
    destruct (String.eqb_spec s "(none)"); congruence.
Qed.

(** C6. In the NEVRA projection, a SOURCERPM, LICENSE or VENDOR string
    entry stores in its field the entry's data, trailing NULs trimmed,
    with ["(none)"] mapped to the empty string and every other value,
    the empty string too, stored verbatim; the field of a successful
    projection is that of the (last) entry with the tag; and the
    normalization is idempotent. *)
Theorem getNEVRA_sentinel_fields :
  (forall (p : PackageInfo) (e : indexEntry),
     Typ (Info e) = RPM_STRING_TYPE ->
     (Tag (Info e) = RPMTAG_SOURCERPM ->
      getNEVRA_switch p e = Return (with_SourceRpm (normalize_none (trimmed e)) p)) /\
     (Tag (Info e) = RPMTAG_LICENSE ->
      getNEVRA_switch p e = Return (with_License (normalize_none (trimmed e)) p)) /\
     (Tag (Info e) = RPMTAG_VENDOR ->
      getNEVRA_switch p e = Return (with_Vendor (normalize_none (trimmed e)) p))) /\
  (forall (l1 l2 : list indexEntry) (e : indexEntry) (p : PackageInfo),
     getNEVRA (l1 ++ e :: l2) = Return p ->
     (Tag (Info e) = RPMTAG_SOURCERPM -> tag_absent RPMTAG_SOURCERPM l2 = true ->
      SourceRpm p = normalize_none (trimmed e)) /\
     (Tag (Info e) = RPMTAG_LICENSE -> tag_absent RPMTAG_LICENSE l2 = true ->
      License p = normalize_none (trimmed e)) /\
     (Tag (Info e) = RPMTAG_VENDOR -> tag_absent RPMTAG_VENDOR l2 = true ->
      Vendor p = normalize_none (trimmed e))) /\
  (forall e : indexEntry,
     last (list_byte_of_string (trimmed e)) <> Some x00 /\
     exists k, view (Data e) = list_byte_of_string (trimmed e) ++ replicate k x00) /\
  (forall s : string,
     (s = "(none)"%string -> normalize_none s = EmptyString) /\
     (s <> "(none)"%string -> normalize_none s = s) /\
     normalize_none (normalize_none s) = normalize_none s).
Proof.
  split; [|split; [|split]].
  - intros p e Hty. repeat split; intros Htag.
    + rewrite switch_at_SourceRpm by exact Htag. rewrite Hty. reflexivity.
    + rewrite switch_at_License by exact Htag. rewrite Hty. reflexivity.
    + rewrite switch_at_Vendor by exact Htag. rewrite Hty. reflexivity.
  - intros l1 l2 e p Hrun. unfold getNEVRA in Hrun. repeat split; intros Htag Habs.
    + destruct (loop_last_entry SourceRpm RPMTAG_SOURCERPM l1 l2 e _ _
                  switch_keeps_SourceRpm Habs Hrun) as (pm & p1 & Hsw & ->).
      rewrite switch_at_SourceRpm in Hsw by exact Htag.
      destruct (Typ (Info e) =? RPM_STRING_TYPE)%N; [|discriminate].
      injection Hsw as <-. reflexivity.
    + destruct (loop_last_entry License RPMTAG_LICENSE l1 l2 e _ _
                  switch_keeps_License Habs Hrun) as (pm & p1 & Hsw & ->).
      rewrite switch_at_License in Hsw by exact Htag.
      destruct (Typ (Info e) =? RPM_STRING_TYPE)%N; [|discriminate].
      injection Hsw as <-. reflexivity.
    + destruct (loop_last_entry Vendor RPMTAG_VENDOR l1 l2 e _ _
                  switch_keeps_Vendor Habs Hrun) as (pm & p1 & Hsw & ->).
      rewrite switch_at_Vendor in Hsw by exact Htag.
      destruct (Typ (Info e) =? RPM_STRING_TYPE)%N; [|discriminate].
      injection Hsw as <-. reflexivity.
  - intros e. unfold trimmed. rewrite list_byte_of_string_of_list_byte.
    split; [apply TrimRight_last|apply TrimRight_decompose].
  - apply normalize_none_spec.
Qed.

Lemma getNEVRA_sentinel_fields_witness :
  getNEVRA ([name_bash; license_gpl; sourcerpm_empty] ++ vendor_none :: [size_7000000])
  = Return (mkPackageInfo 0 "bash" EmptyString EmptyString EmptyString EmptyString
              7000000 "GPLv3+" EmptyString) /\
  Tag (Info vendor_none) = RPMTAG_VENDOR /\
  tag_absent RPMTAG_VENDOR [size_7000000] = true /\
  EmptyString = normalize_none (trimmed vendor_none).
Proof.
  split; [reflexivity|]. split; [reflexivity|]. split; [reflexivity|].
  destruct getNEVRA_sentinel_fields as (_ & Hfield & _).
  destruct (Hfield [name_bash; license_gpl; sourcerpm_empty] [size_7000000] vendor_none
              (mkPackageInfo 0 "bash" EmptyString EmptyString EmptyString EmptyString
                 7000000 "GPLv3+" EmptyString) eq_refl) as (_ & _ & Hvendor).
  apply Hvendor; reflexivity.
Defined.

(** ** TAG_TYPE.String *)

Lemma to_int_nonnil (z : Z) : Z.to_int z <> Decimal.Pos Decimal.Nil /\ Z.to_int z <> Decimal.Neg Decimal.Nil.
Proof.
  destruct z as [|q|q]; simpl; split; try discriminate;
    intros [= H]; exact (DecimalPos.Unsigned.to_uint_nonnil q H).
Qed.

(** Decimal printing tells numbers apart. *)
Lemma FormatInt_inj (m n : Z) : FormatInt m = FormatInt n -> m = n.
Proof.
  unfold FormatInt. intros H.
  destruct (to_int_nonnil m) as [Hm1 Hm2]. destruct (to_int_nonnil n) as [Hn1 Hn2].
  pose proof (NilZero.isi (Z.to_int m) Hm1 Hm2) as Em.
  pose proof (NilZero.isi (Z.to_int n) Hn1 Hn2) as En.
  rewrite H in Em. rewrite Em in En. injection En as En.
  apply DecimalZ.to_int_inj. exact En.
Qed.

Lemma string_length_append (s t : string) :
  String.length (String.append s t) = (String.length s + String.length t)%nat.
Proof. induction s as [|c s IH]; simpl; [reflexivity|]. rewrite IH. reflexivity. Qed.

Lemma string_append_cancel_r (s1 s2 t : string) :
  String.append s1 t = String.append s2 t -> s1 = s2.
Proof.
  revert s2. induction s1 as [|c s1 IH]; intros [|d s2] H.
  - reflexivity.
  - apply (f_equal String.length) in H.
    rewrite !string_length_append in H. cbn [String.length] in H. lia.
  - apply (f_equal String.length) in H.
    rewrite !string_length_append in H. cbn [String.length] in H. lia.
  - cbn in H. injection H as -> H. f_equal. apply IH. exact H.
Qed.

Lemma string_append_cancel_l (p s1 s2 : string) :
  String.append p s1 = String.append p s2 -> s1 = s2.
Proof.
  induction p as [|c p IH]; intros H; [exact H|].
  injection H as H. apply IH. exact H.
Qed.

Lemma small_type_cases (i : N) :
  (i < 10)%N ->
  i = 0%N \/ i = 1%N \/ i = 2%N \/ i = 3%N \/ i = 4%N \/
  i = 5%N \/ i = 6%N \/ i = 7%N \/ i = 8%N \/ i = 9%N.
Proof. lia. Qed.

(** X1. [String] never panics: for the ten declared types the offsets
    table cuts the constant's own name out of the name string, and for
    every other value the result is [TAG_TYPE(n)] with [n] in decimal. *)
Theorem TAG_TYPE_String_spec (i : TAG_TYPE) :
  TAG_TYPE_String i
  = Some (match TAG_TYPE_names !! N.to_nat i with
          | Some name => name
          | None => String.append "TAG_TYPE(" (String.append (FormatInt (Z.of_N i)) ")")
          end).
Proof.
  destruct (N.lt_ge_cases i 10) as [Hlt|Hge].
  - destruct (small_type_cases i Hlt) as [H|[H|[H|[H|[H|[H|[H|[H|[H|H]]]]]]]]];
      subst i; reflexivity.
  - unfold TAG_TYPE_String.
    replace (N.of_nat (length _TAG_TYPE_index) - 1 <=? i)%N with true
      by (symmetry; apply N.leb_le; exact Hge).
    rewrite (proj2 (lookup_ge_None TAG_TYPE_names (N.to_nat i))); [reflexivity|].
    simpl. lia.
Qed.

(** X2. [String] tells types apart: two type values with the same
    string are equal. *)
Theorem TAG_TYPE_String_inj (i j : TAG_TYPE) :
  TAG_TYPE_String i = TAG_TYPE_String j -> i = j.
Proof.
  rewrite !TAG_TYPE_String_spec. intros [= H].
  destruct (N.lt_ge_cases i 10) as [Hi|Hi]; destruct (N.lt_ge_cases j 10) as [Hj|Hj].
  - destruct (small_type_cases i Hi) as [E|[E|[E|[E|[E|[E|[E|[E|[E|E]]]]]]]]]; subst i;
      destruct (small_type_cases j Hj) as [E|[E|[E|[E|[E|[E|[E|[E|[E|E]]]]]]]]]; subst j;
      first [reflexivity | discriminate H].
  - rewrite (proj2 (lookup_ge_None TAG_TYPE_names (N.to_nat j))) in H by (simpl; lia).
    destruct (small_type_cases i Hi) as [E|[E|[E|[E|[E|[E|[E|[E|[E|E]]]]]]]]]; subst i;
      discriminate H.
  - rewrite (proj2 (lookup_ge_None TAG_TYPE_names (N.to_nat i))) in H by (simpl; lia).
    destruct (small_type_cases j Hj) as [E|[E|[E|[E|[E|[E|[E|[E|[E|E]]]]]]]]]; subst j;
      discriminate H.
  - rewrite (proj2 (lookup_ge_None TAG_TYPE_names (N.to_nat i))) in H by (simpl; lia).
    rewrite (proj2 (lookup_ge_None TAG_TYPE_names (N.to_nat j))) in H by (simpl; lia).
    apply string_append_cancel_l, string_append_cancel_r in H.
    apply FormatInt_inj in H. lia.
Qed.

Lemma TAG_TYPE_String_inj_witness :
  TAG_TYPE_String RPM_BIN_TYPE = TAG_TYPE_String 7%N /\ RPM_BIN_TYPE = 7%N.
Proof.
  split; [reflexivity|].
  apply (TAG_TYPE_String_inj RPM_BIN_TYPE 7%N). reflexivity.
Defined.

(** ** dumpEntry and entryValue, all types *)

(** X3. [dumpEntry] mirrors [entryValue]: where [entryValue] returns a
    value, [dumpEntry] prints one line with the entry's tag, its type
    and that value and returns nil; where [entryValue] returns a read
    error, [dumpEntry] returns the same error and prints nothing; where
    [entryValue] returns [ErrNotSupport], [dumpEntry] prints nothing
    and returns nil; and they panic together. *)
Theorem dumpEntry_mirrors_entryValue (e : indexEntry) :
  match entryValue e with
  | Return v => dumpEntry e = Return [(Tag (Info e), Typ (Info e), v)]
  | Fail ErrNotSupport => dumpEntry e = Return []
  | Fail err => dumpEntry e = Fail err
  | Panics p => dumpEntry e = Panics p
  end.
Proof.
  unfold entryValue, dumpEntry. cbv zeta.
  repeat match goal with
  | |- context [N.eqb ?a ?b] => destruct (N.eqb a b); cbn [orb]
  end;
  repeat match goal with
  | |- context [Binary.Read_uint8 ?r] => destruct (Binary.Read_uint8 r) as [[?|?] ?]
  | |- context [Binary.Read_uint ?n ?r] => destruct (Binary.Read_uint n r) as [[?|?] ?]
  | |- context [if ?c then _ else _] => destruct c
  | |- context [slice_to ?s ?h] => destruct (slice_to s h)
  end; reflexivity.
Qed.

Lemma BigEndian_be_value_from (bs : list byte) (a : Z) :
  fold_left (fun acc b => Z.lor (Z.shiftl acc 8) (byte_Z b)) bs a
  = fold_left (fun acc b => acc * 256 + byte_Z b) bs a.
Proof.
  revert a. induction bs as [|b bs IH]; intros a; simpl; [reflexivity|].
  rewrite lor_shiftl_byte by apply byte_Z_range. apply IH.
Qed.

(** The shifts and ors of [binary.BigEndian] spell the base-256 number. *)
Lemma BigEndian_be_value (bs : list byte) : Binary.BigEndian bs = be_value bs.
Proof. apply BigEndian_be_value_from. Qed.

Lemma be_value_range_from (bs : list byte) (a : Z) :
  0 <= a ->
  0 <= fold_left (fun acc b => acc * 256 + byte_Z b) bs a
  /\ fold_left (fun acc b => acc * 256 + byte_Z b) bs a
     < (a + 1) * 2 ^ (8 * Z.of_nat (length bs)).
Proof.
  revert a. induction bs as [|b bs IH]; intros a Ha.
  - simpl. lia.
  - cbn [fold_left length]. pose proof (byte_Z_range b) as Hb.
    change (2 ^ 8) with 256 in Hb.
    destruct (IH (a * 256 + byte_Z b) ltac:(lia)) as [H0 H1]. split; [exact H0|].
    eapply Z.lt_le_trans; [exact H1|].
    replace (8 * Z.of_nat (S (length bs))) with (8 + 8 * Z.of_nat (length bs)) by lia.
    rewrite Z.pow_add_r by lia. change (2 ^ 8) with 256.
    assert (0 < 2 ^ (8 * Z.of_nat (length bs))) by (apply Z.pow_pos_nonneg; lia).
    nia.
Qed.

Lemma be_value_range (bs : list byte) :
  0 <= be_value bs < 2 ^ (8 * Z.of_nat (length bs)).
Proof.
  destruct (be_value_range_from bs 0 ltac:(lia)) as [H0 H1].
  unfold be_value. split; [exact H0|]. lia.
Qed.

Lemma Read_uint_spec (n : nat) (r : list byte) :
  Binary.Read_uint n r
  = if (n <=? length r)%nat then (inr (be_value (take n r)), drop n r)
    else (inl (short_read r), []).
Proof.
  unfold Binary.Read_uint, Binary.ReadFull.
  destruct (n <=? length r)%nat; [rewrite BigEndian_be_value; reflexivity|].
  destruct r; reflexivity.
Qed.

(** X4. [entryValue] on INT16, INT32 and INT64: with at least 2, 4 or
    8 bytes of data the value is the unsigned big-endian number of the
    first 2, 4 or 8 bytes, whatever the count, and it fits the
    width; with less data the call returns a read error, [EOF] for
    no data at all. *)
Theorem entryValue_unsigned (e : indexEntry) (width : nat) (make : Z -> value) :
  (Typ (Info e) = RPM_INT16_TYPE /\ width = 2%nat /\ make = Uint16) \/
  (Typ (Info e) = RPM_INT32_TYPE /\ width = 4%nat /\ make = Uint32) \/
  (Typ (Info e) = RPM_INT64_TYPE /\ width = 8%nat /\ make = Uint64) ->
  ((width <= length (view (Data e)))%nat ->
   entryValue e = Return (make (be_value (take width (view (Data e))))) /\
   0 <= be_value (take width (view (Data e))) < 2 ^ (8 * Z.of_nat width)) /\
  ((length (view (Data e)) < width)%nat ->
   entryValue e = Fail (Errorf read_failed (short_read (view (Data e))))).
Proof.
  intros H.
  assert (Hv : entryValue e
               = match Binary.Read_uint width (view (Data e)) with
                 | (inl err, _) => Fail (Errorf read_failed err)
                 | (inr v, _) => Return (make v)
                 end).
  { destruct H as [(Hty & -> & ->)|[(Hty & -> & ->)|(Hty & -> & ->)]];
      unfold entryValue, Bytes.NewReader; cbv zeta; rewrite Hty; reflexivity. }
  rewrite Hv, Read_uint_spec. split; intros Hlen.
  - destruct (Nat.leb_spec width (length (view (Data e)))); [|lia].
    split; [reflexivity|].
    pose proof (be_value_range (take width (view (Data e)))) as Hr.
    rewrite length_take in Hr. replace (width `min` length (view (Data e)))%nat with width in Hr by lia.
    exact Hr.
  - destruct (Nat.leb_spec width (length (view (Data e)))); [lia|reflexivity].
Qed.

Lemma entryValue_unsigned_witness :
  entryValue int16_be = Return (Uint16 258) /\
  entryValue int64_short = Fail (Errorf read_failed ErrUnexpectedEOF).
Proof.
  split.
  - apply (entryValue_unsigned int16_be 2 Uint16); [left; repeat split|simpl; lia].
  - apply (entryValue_unsigned int64_short 8 Uint64); [right; right; repeat split|simpl; lia].
Defined.

(** X5. [entryValue] returns [ErrNotSupport] exactly for the NULL type,
    for a type value above the ten declared ones, and for a BIN entry
    with a tag in [[HEADER_IMAGE, HEADER_REGIONS)]. *)
Theorem entryValue_not_supported (e : indexEntry) :
  entryValue e = Fail ErrNotSupport <->
  Typ (Info e) = RPM_NULL_TYPE \/ (RPM_I18NSTRING_TYPE < Typ (Info e))%N \/
  (Typ (Info e) = RPM_BIN_TYPE /\ region_tag (Tag (Info e)) = true).
Proof.
  unfold entryValue, region_tag, RPMTAG_HEADERIMAGE, RPMTAG_HEADERREGIONS. cbv zeta.
  repeat match goal with
  | |- context [N.eqb ?a ?b] => destruct (N.eqb_spec a b); cbn [orb]
  end;
  repeat match goal with
  | |- context [Binary.Read_uint8 ?r] => destruct (Binary.Read_uint8 r) as [[?|?] ?]
  | |- context [Binary.Read_uint ?n ?r] => destruct (Binary.Read_uint n r) as [[?|?] ?]
  | |- context [slice_to ?s ?h] => destruct (slice_to s h)
  end;
  try destruct ((HEADER_IMAGE <=? Tag (Info e)) && (Tag (Info e) <? HEADER_REGIONS)) eqn:Hreg;
  type_constants;
  (split; [intros H; try discriminate H; tauto || (right; left; lia)
          | intros [H|[H|[H1 H2]]]; try reflexivity; try congruence; try lia]).
Qed.

Lemma entryValue_not_supported_witness :
  entryValue unknown_type = Fail ErrNotSupport /\
  entryValue summary_null = Fail ErrNotSupport /\
  entryValue region_trailer = Fail ErrNotSupport.
Proof.
  split; [|split].
  - apply (entryValue_not_supported unknown_type). right. left. reflexivity.
  - apply (entryValue_not_supported summary_null). left. reflexivity.
  - apply (entryValue_not_supported region_trailer). right. right. split; reflexivity.
Defined.

(** X6. [entryValue] on a STRING entry never fails: the value is the
    data without its trailing NUL bytes (all of them, and nothing
    else), whatever the count. *)
Theorem entryValue_string (e : indexEntry) :
  Typ (Info e) = RPM_STRING_TYPE ->
  exists s,
    entryValue e = Return (Str s) /\
    last (list_byte_of_string s) <> Some x00 /\
    exists k, view (Data e) = list_byte_of_string s ++ replicate k x00.
Proof.
  intros Hty. exists (string_of_list_byte (Bytes.TrimRight (view (Data e)))).
  split; [unfold entryValue; cbv zeta; rewrite Hty; reflexivity|].
  rewrite list_byte_of_string_of_list_byte.
  split; [apply TrimRight_last|apply TrimRight_decompose].
Qed.

Lemma entryValue_string_witness :
  exists s,
    entryValue summary_gnu = Return (Str s) /\
    last (list_byte_of_string s) <> Some x00 /\
    exists k, view (Data summary_gnu) = list_byte_of_string s ++ replicate k x00.
Proof. apply (entryValue_string summary_gnu). reflexivity. Defined.

(** X7. [entryValue] on a STRING_ARRAY or I18NSTRING entry never fails
    and yields exactly [count] strings; when the data holds fewer NUL
    bytes than [count], they are the NUL-free pieces of the data cut at
    every NUL, in order, followed by empty strings. *)
Theorem entryValue_string_array (e : indexEntry) :
  Typ (Info e) = RPM_STRING_ARRAY_TYPE \/ Typ (Info e) = RPM_I18NSTRING_TYPE ->
  exists values,
    entryValue e = Return (Strs values) /\
    length values = N.to_nat (Count (Info e)) /\
    ((count_NUL (view (Data e)) < N.to_nat (Count (Info e)))%nat ->
     exists pieces,
       join_NUL pieces = view (Data e) /\
       Forall (fun p => count_NUL p = 0%nat) pieces /\
       length pieces = S (count_NUL (view (Data e))) /\
       values = map string_of_list_byte pieces
                ++ replicate (N.to_nat (Count (Info e)) - length pieces) EmptyString).
Proof.
  intros Hty. exists (split_strings e).
  split; [apply entryValue_strings; exact Hty|].
  split; [apply split_strings_length|apply split_strings_short].
Qed.

Lemma entryValue_string_array_witness :
  exists values,
    entryValue (entry RPMTAG_BASENAMES RPM_STRING_ARRAY_TYPE 3 [x61; x00; x62]) = Return (Strs values) /\
    length values = 3%nat.
Proof.
  destruct (entryValue_string_array
              (entry RPMTAG_BASENAMES RPM_STRING_ARRAY_TYPE 3 [x61; x00; x62]))
    as (values & Hv & Hl & _); [left; reflexivity|].
  exists values. split; [exact Hv|exact Hl].
Defined.

(** The shape of a split: NUL-free pieces, fewer than the limit, then
    one last piece that holds every NUL not used as a cut. *)
Lemma genSplit_front (s : list byte) (n : Z) :
  1 <= n ->
  exists front rest,
    Bytes.genSplit s n = front ++ [rest] /\
    Forall (fun p => count_NUL p = 0%nat) front /\
    (length front < Z.to_nat n)%nat /\
    count_NUL s = (length front + count_NUL rest)%nat.
Proof.
  revert n. induction s as [|b t IH]; intros n Hn.
  - exists [], []. simpl. repeat split; [constructor|lia].
  - cbn [Bytes.genSplit]. rewrite count_NUL_cons.
    destruct (Z.ltb_spec 1 n) as [H1|H1]; cbn [andb].
    + destruct (Bytes.is_NUL b) eqn:Hb.
      * destruct (IH (n - 1) ltac:(lia)) as (front & rest & E & Hc & Hl & Hn').
        exists ([] :: front), rest. rewrite E. simpl.
        repeat split; [constructor; [reflexivity|exact Hc]|lia|lia].
      * destruct (IH n Hn) as (front & rest & E & Hc & Hl & Hn').
        rewrite E. destruct front as [|f fs]; simpl.
        -- exists [], (b :: rest). rewrite count_NUL_cons, Hb. simpl in *.
           repeat split; [constructor|lia|lia].
        -- exists ((b :: f) :: fs), rest. inversion Hc; subst. simpl in *.
           repeat split; [|lia|lia].
           constructor; [rewrite count_NUL_cons, Hb; simpl; assumption|assumption].
    + assert (n = 1) by lia. subst n.
      destruct (IH 1 Hn) as (front & rest & E & Hc & Hl & Hn').
      destruct front as [|f fs]; [|simpl in Hl; lia].
      rewrite E. simpl. exists [], (b :: rest). rewrite count_NUL_cons. simpl in *.
      repeat split; [constructor|lia|lia].
Qed.

(** X8. On a STRING_ARRAY or I18NSTRING entry with [count >= 1] whose
    data holds at least [count] NUL bytes (the data of [count]
    NUL-terminated strings does), [entryValue] cuts the data at its
    first [count - 1] NULs only: the first [count - 1] strings are
    NUL-free, and the last string is the unsplit remainder of the
    data, everything after the NUL number [count - 1], which holds all
    the other NUL bytes, at least one. *)
Theorem entryValue_string_array_remainder (e : indexEntry) :
  Typ (Info e) = RPM_STRING_ARRAY_TYPE \/ Typ (Info e) = RPM_I18NSTRING_TYPE ->
  (1 <= N.to_nat (Count (Info e)) <= count_NUL (view (Data e)))%nat ->
  exists front rest,
    entryValue e
    = Return (Strs (map string_of_list_byte front ++ [string_of_list_byte rest])) /\
    S (length front) = N.to_nat (Count (Info e)) /\
    Forall (fun p => count_NUL p = 0%nat) front /\
    join_NUL (front ++ [rest]) = view (Data e) /\
    count_NUL (view (Data e)) = (length front + count_NUL rest)%nat /\
    has_NUL (string_of_list_byte rest) = true.
Proof.
  intros Hty Hc.
  destruct (genSplit_front (view (Data e)) (Z.of_N (Count (Info e))) ltac:(lia))
    as (front & rest & E & Hclean & _ & Hn).
  pose proof (genSplit_length (view (Data e)) (Z.of_N (Count (Info e))) ltac:(lia)) as Hlen.
  pose proof (join_genSplit (view (Data e)) (Z.of_N (Count (Info e)))) as Hjoin.
  rewrite E in Hlen, Hjoin. rewrite length_app in Hlen. simpl in Hlen.
  assert (Hfront : S (length front) = N.to_nat (Count (Info e))) by lia.
  exists front, rest.
  split; [|split; [exact Hfront|split; [exact Hclean|split; [exact Hjoin|split; [exact Hn|]]]]].
  - rewrite entryValue_strings by exact Hty. unfold split_strings. cbv zeta.
    rewrite SplitN_positive by lia. rewrite fill_values_replicate, E.
    rewrite take_ge by (rewrite length_map, length_app; simpl; lia).
    replace (N.to_nat (Count (Info e)) - length (front ++ [rest]))%nat with 0%nat
      by (rewrite length_app; simpl; lia).
    rewrite map_app. simpl. rewrite app_nil_r. reflexivity.
  - apply has_NUL_string. lia.
Qed.

Lemma entryValue_string_array_remainder_witness :
  exists front rest,
    entryValue basenames
    = Return (Strs (map string_of_list_byte front ++ [string_of_list_byte rest])) /\
    S (length front) = N.to_nat (Count (Info basenames)) /\
    Forall (fun p => count_NUL p = 0%nat) front /\
    join_NUL (front ++ [rest]) = view (Data basenames) /\
    count_NUL (view (Data basenames)) = (length front + count_NUL rest)%nat /\
    has_NUL (string_of_list_byte rest) = true.
Proof.
  apply (entryValue_string_array_remainder basenames); [left; reflexivity|].
  split; vm_compute; lia.
Defined.

(** X9. [entryValue] on a CHAR or INT8 entry reads a byte twice: with
    two or more bytes of data the value is the second byte, and with
    fewer the call returns the read error [EOF]. *)
Theorem entryValue_char_second_byte (e : indexEntry) :
  Typ (Info e) = RPM_CHAR_TYPE \/ Typ (Info e) = RPM_INT8_TYPE ->
  (forall b0 b1 rest, view (Data e) = b0 :: b1 :: rest ->
     entryValue e = Return (Uint8 b1)) /\
  ((length (view (Data e)) < 2)%nat ->
   entryValue e = Fail (Errorf read_failed EOF)).
Proof.
  intros Hty. rewrite (entryValue_char e Hty). split.
  - intros b0 b1 rest ->. reflexivity.
  - destruct (view (Data e)) as [|b0 [|b1 rest]]; simpl; intros; [reflexivity..|lia].
Qed.

Lemma entryValue_char_second_byte_witness :
  entryValue states_two = Return (Uint8 x42) /\
  entryValue states_one = Fail (Errorf read_failed EOF).
Proof.
  destruct (entryValue_char_second_byte states_two) as [H2 _]; [right; reflexivity|].
  destruct (entryValue_char_second_byte states_one) as [_ H1]; [left; reflexivity|].
  split; [apply (H2 x41 x42 []); reflexivity|apply H1; simpl; lia].
Defined.

(** ** getNEVRA: the remaining fields, absent tags, success *)

Lemma switch_keeps_Name (p p' : PackageInfo) (e : indexEntry) :
  Tag (Info e) <> RPMTAG_NAME ->
  getNEVRA_switch p e = Return p' -> Name p' = Name p.
Proof. preserved. Qed.

Lemma switch_keeps_Version (p p' : PackageInfo) (e : indexEntry) :
  Tag (Info e) <> RPMTAG_VERSION ->
  getNEVRA_switch p e = Return p' -> Version p' = Version p.
Proof. preserved. Qed.

Lemma switch_keeps_Release (p p' : PackageInfo) (e : indexEntry) :
  Tag (Info e) <> RPMTAG_RELEASE ->
  getNEVRA_switch p e = Return p' -> Release p' = Release p.
Proof. preserved. Qed.

Lemma switch_keeps_Arch (p p' : PackageInfo) (e : indexEntry) :
  Tag (Info e) <> RPMTAG_ARCH ->
  getNEVRA_switch p e = Return p' -> Arch p' = Arch p.
Proof. preserved. Qed.

Lemma switch_at_Name (p : PackageInfo) (e : indexEntry) :
  Tag (Info e) = RPMTAG_NAME ->
  getNEVRA_switch p e
  = if (Typ (Info e) =? RPM_STRING_TYPE)%N
    then Return (with_Name (trimmed e) p) else Fail (New "invalid tag name").
Proof.
  intros Htag. at_tag Htag. destruct (Typ (Info e) =? RPM_STRING_TYPE)%N; reflexivity.
Qed.

Lemma switch_at_Version (p : PackageInfo) (e : indexEntry) :
  Tag (Info e) = RPMTAG_VERSION ->
  getNEVRA_switch p e
  = if (Typ (Info e) =? RPM_STRING_TYPE)%N
    then Return (with_Version (trimmed e) p) else Fail (New "invalid tag version").
Proof.
  intros Htag. at_tag Htag. destruct (Typ (Info e) =? RPM_STRING_TYPE)%N; reflexivity.
Qed.

Lemma switch_at_Release (p : PackageInfo) (e : indexEntry) :
  Tag (Info e) = RPMTAG_RELEASE ->
  getNEVRA_switch p e
  = if (Typ (Info e) =? RPM_STRING_TYPE)%N
    then Return (with_Release (trimmed e) p) else Fail (New "invalid tag release").
Proof.
  intros Htag. at_tag Htag. destruct (Typ (Info e) =? RPM_STRING_TYPE)%N; reflexivity.
Qed.

Lemma switch_at_Arch (p : PackageInfo) (e : indexEntry) :
  Tag (Info e) = RPMTAG_ARCH ->
  getNEVRA_switch p e
  = if (Typ (Info e) =? RPM_STRING_TYPE)%N
    then Return (with_Arch (trimmed e) p) else Fail (New "invalid tag arch").
Proof.
  intros Htag. at_tag Htag. destruct (Typ (Info e) =? RPM_STRING_TYPE)%N; reflexivity.
Qed.

(** X10. In the NEVRA projection, the NAME, VERSION, RELEASE and ARCH
    fields of a successful projection are the data of the last entry
    with that tag, trailing NULs trimmed and nothing normalized (a
    name ["(none)"] stays). *)
Theorem getNEVRA_string_fields
  (l1 l2 : list indexEntry) (e : indexEntry) (p : PackageInfo) :
  getNEVRA (l1 ++ e :: l2) = Return p ->
  (Tag (Info e) = RPMTAG_NAME -> tag_absent RPMTAG_NAME l2 = true ->
   Name p = trimmed e) /\
  (Tag (Info e) = RPMTAG_VERSION -> tag_absent RPMTAG_VERSION l2 = true ->
   Version p = trimmed e) /\
  (Tag (Info e) = RPMTAG_RELEASE -> tag_absent RPMTAG_RELEASE l2 = true ->
   Release p = trimmed e) /\
  (Tag (Info e) = RPMTAG_ARCH -> tag_absent RPMTAG_ARCH l2 = true ->
   Arch p = trimmed e).
Proof.
  intros Hrun. unfold getNEVRA in Hrun. repeat split; intros Htag Habs.
  - destruct (loop_last_entry Name RPMTAG_NAME l1 l2 e _ _
                switch_keeps_Name Habs Hrun) as (pm & p1 & Hsw & ->).
    rewrite switch_at_Name in Hsw by exact Htag.
    destruct (Typ (Info e) =? RPM_STRING_TYPE)%N; [|discriminate].
    injection Hsw as <-. reflexivity.
  - destruct (loop_last_entry Version RPMTAG_VERSION l1 l2 e _ _
                switch_keeps_Version Habs Hrun) as (pm & p1 & Hsw & ->).
    rewrite switch_at_Version in Hsw by exact Htag.
    destruct (Typ (Info e) =? RPM_STRING_TYPE)%N; [|discriminate].
    injection Hsw as <-. reflexivity.
  - destruct (loop_last_entry Release RPMTAG_RELEASE l1 l2 e _ _
                switch_keeps_Release Habs Hrun) as (pm & p1 & Hsw & ->).
    rewrite switch_at_Release in Hsw by exact Htag.
    destruct (Typ (Info e) =? RPM_STRING_TYPE)%N; [|discriminate].
    injection Hsw as <-. reflexivity.
  - destruct (loop_last_entry Arch RPMTAG_ARCH l1 l2 e _ _
                switch_keeps_Arch Habs Hrun) as (pm & p1 & Hsw & ->).
    rewrite switch_at_Arch in Hsw by exact Htag.
    destruct (Typ (Info e) =? RPM_STRING_TYPE)%N; [|discriminate].
    injection Hsw as <-. reflexivity.
Qed.

Lemma getNEVRA_string_fields_witness :
  getNEVRA ([vendor_none; entry RPMTAG_NAME RPM_STRING_TYPE 1 (ascii_bytes "(none)")]
            ++ name_bash :: [size_7000000])
  = Return (mkPackageInfo 0 "bash" EmptyString EmptyString EmptyString EmptyString
              7000000 EmptyString EmptyString) /\
  "bash"%string = trimmed name_bash.
Proof.
  split; [reflexivity|].
  destruct (getNEVRA_string_fields
              [vendor_none; entry RPMTAG_NAME RPM_STRING_TYPE 1 (ascii_bytes "(none)")]
              [size_7000000] name_bash
              (mkPackageInfo 0 "bash" EmptyString EmptyString EmptyString EmptyString
                 7000000 EmptyString EmptyString) eq_refl) as (Hname & _).
  apply Hname; reflexivity.
Defined.

(** X11. A field whose tag no entry carries keeps its zero value in a
    successful projection: an absent EPOCH or SIZE gives 0, an absent
    string tag the empty string. *)
Theorem getNEVRA_absent_tags (l : list indexEntry) (p : PackageInfo) :
  getNEVRA l = Return p ->
  (tag_absent RPMTAG_EPOCH l = true -> Epoch p = 0) /\
  (tag_absent RPMTAG_NAME l = true -> Name p = EmptyString) /\
  (tag_absent RPMTAG_VERSION l = true -> Version p = EmptyString) /\
  (tag_absent RPMTAG_RELEASE l = true -> Release p = EmptyString) /\
  (tag_absent RPMTAG_ARCH l = true -> Arch p = EmptyString) /\
  (tag_absent RPMTAG_SOURCERPM l = true -> SourceRpm p = EmptyString) /\
  (tag_absent RPMTAG_SIZE l = true -> Size p = 0) /\
  (tag_absent RPMTAG_LICENSE l = true -> License p = EmptyString) /\
  (tag_absent RPMTAG_VENDOR l = true -> Vendor p = EmptyString).
Proof.
  intros Hrun. unfold getNEVRA in Hrun. repeat split; intros Habs.
  - apply (loop_keeps Epoch RPMTAG_EPOCH switch_keeps_Epoch l _ _ Habs Hrun).
  - apply (loop_keeps Name RPMTAG_NAME switch_keeps_Name l _ _ Habs Hrun).
  - apply (loop_keeps Version RPMTAG_VERSION switch_keeps_Version l _ _ Habs Hrun).
  - apply (loop_keeps Release RPMTAG_RELEASE switch_keeps_Release l _ _ Habs Hrun).
  - apply (loop_keeps Arch RPMTAG_ARCH switch_keeps_Arch l _ _ Habs Hrun).
  - apply (loop_keeps SourceRpm RPMTAG_SOURCERPM switch_keeps_SourceRpm l _ _ Habs Hrun).
  - apply (loop_keeps Size RPMTAG_SIZE switch_keeps_Size l _ _ Habs Hrun).
  - apply (loop_keeps License RPMTAG_LICENSE switch_keeps_License l _ _ Habs Hrun).
  - apply (loop_keeps Vendor RPMTAG_VENDOR switch_keeps_Vendor l _ _ Habs Hrun).
Qed.

Lemma getNEVRA_absent_tags_witness :
  getNEVRA [name_bash; sigmd5; size_7000000]
  = Return (mkPackageInfo 0 "bash" EmptyString EmptyString EmptyString EmptyString
              7000000 EmptyString EmptyString) /\
  tag_absent RPMTAG_EPOCH [name_bash; sigmd5; size_7000000] = true /\
  Epoch (mkPackageInfo 0 "bash" EmptyString EmptyString EmptyString EmptyString
           7000000 EmptyString EmptyString) = 0.
Proof.
  split; [reflexivity|]. split; [reflexivity|].
  destruct (getNEVRA_absent_tags [name_bash; sigmd5; size_7000000]
              (mkPackageInfo 0 "bash" EmptyString EmptyString EmptyString EmptyString
                 7000000 EmptyString EmptyString) eq_refl) as (Hepoch & _).
  apply Hepoch. reflexivity.
Defined.

Lemma is_nevra_tag_true (tag : TAG_ID) :
  is_nevra_tag tag = true ->
  tag = RPMTAG_NAME \/ tag = RPMTAG_EPOCH \/ tag = RPMTAG_VERSION \/
  tag = RPMTAG_RELEASE \/ tag = RPMTAG_ARCH \/ tag = RPMTAG_SOURCERPM \/
  tag = RPMTAG_LICENSE \/ tag = RPMTAG_VENDOR \/ tag = RPMTAG_SIZE.
Proof.
  unfold is_nevra_tag, nevra_tags. cbn [existsb]. intros H.
  rewrite !orb_true_iff, !Z.eqb_eq in H. intuition discriminate.
Qed.

Lemma Read_int32_succeeds (r : list byte) :
  (exists v r', Binary.Read_int32 r = (inr v, r')) <-> (4 <= length r)%nat.
Proof.
  split.
  - intros (v & r' & H). apply Read_int32_inv in H as (b0 & b1 & b2 & b3 & -> & _).
    simpl. lia.
  - intros H. destruct r as [|b0 [|b1 [|b2 [|b3 rest]]]]; simpl in H; try lia.
    rewrite Read_int32_four. eauto.
Qed.

Ltac string_tag_ok Hat Htag e :=
  rewrite Hat by exact Htag;
  destruct (N.eqb_spec (Typ (Info e)) RPM_STRING_TYPE) as [->|?];
  [split; [reflexivity|eauto]
  |split; [intros [? ?]; discriminate|]; type_constants;
   intros H; apply andb_true_iff in H as [H _]; apply N.eqb_eq in H; congruence].

Ltac int_tag_ok Hat Htag e :=
  rewrite Hat by exact Htag;
  destruct (N.eqb_spec (Typ (Info e)) RPM_INT32_TYPE) as [->|?];
  [cbn [N.eqb Pos.eqb RPM_INT32_TYPE RPM_STRING_TYPE andb orb];
   rewrite Nat.leb_le, <- Read_int32_succeeds;
   destruct (Binary.Read_int32 (view (Data e))) as [[?|?] ?];
   split; [intros [? ?]; discriminate|intros (? & ? & ?); discriminate|eauto|eauto]
  |split; [intros [? ?]; discriminate|]; type_constants;
   intros H; apply andb_true_iff in H as [H _]; apply N.eqb_eq in H; congruence].

(** The switch accepts exactly the acceptable entries. *)
Lemma switch_succeeds_iff (p : PackageInfo) (e : indexEntry) :
  (exists p', getNEVRA_switch p e = Return p') <-> nevra_entry_ok e = true.
Proof.
  unfold nevra_entry_ok. destruct (is_nevra_tag (Tag (Info e))) eqn:Hn; cbn [negb orb].
  - apply is_nevra_tag_true in Hn.
    destruct Hn as [Htag|[Htag|[Htag|[Htag|[Htag|[Htag|[Htag|[Htag|Htag]]]]]]]];
      rewrite Htag;
      match goal with
      | |- context [required_type ?c] =>
          let v := eval vm_compute in (required_type c) in
          change (required_type c) with v
      end.
    + string_tag_ok switch_at_Name Htag e.
    + int_tag_ok switch_at_Epoch Htag e.
    + string_tag_ok switch_at_Version Htag e.
    + string_tag_ok switch_at_Release Htag e.
    + string_tag_ok switch_at_Arch Htag e.
    + string_tag_ok switch_at_SourceRpm Htag e.
    + string_tag_ok switch_at_License Htag e.
    + string_tag_ok switch_at_Vendor Htag e.
    + int_tag_ok switch_at_Size Htag e.
  - rewrite getNEVRA_switch_other by exact Hn. split; eauto.
Qed.

(** X12. [getNEVRA] succeeds exactly when every entry is acceptable:
    outside the nine recognized tags, or of the required type (INT32
    for EPOCH and SIZE, STRING for the others) and, for EPOCH and SIZE,
    with at least four bytes of data. Count, offset and the data of
    string entries play no part. *)
Theorem getNEVRA_succeeds_iff (l : list indexEntry) :
  (exists p, getNEVRA l = Return p) <-> forallb nevra_entry_ok l = true.
Proof.
  unfold getNEVRA. generalize zero_PackageInfo.
  induction l as [|e l IH]; intros p; simpl.
  - split; eauto.
  - rewrite andb_true_iff, <- (switch_succeeds_iff p e). split.
    + intros [p' H]. destruct (getNEVRA_switch p e) as [p1| |] eqn:E; try discriminate.
      split; [eauto|]. apply (IH p1). eauto.
    + intros [[p1 E] Hl]. rewrite E. apply IH. exact Hl.
Qed.

Lemma getNEVRA_succeeds_iff_witness :
  (exists p, getNEVRA [name_bash; sigmd5_beyond; epoch_two_words] = Return p) /\
  ~ (exists p, getNEVRA [name_bash; entry RPMTAG_SIZE RPM_INT32_TYPE 1 [x00; x01]] = Return p).
Proof.
  split.
  - apply (getNEVRA_succeeds_iff [name_bash; sigmd5_beyond; epoch_two_words]). reflexivity.
  - intros H.
    apply (getNEVRA_succeeds_iff [name_bash; entry RPMTAG_SIZE RPM_INT32_TYPE 1 [x00; x01]]) in H.
    discriminate H.
Defined.

(** ** getPackageWithTags: what the tags map holds *)

Lemma switch_TagsMap_sound (tagMask : gmap Z bool) (px px' : PackageInfoEx)
  (e : indexEntry) (t : TAG_ID) (v : value) :
  getPackageWithTags_switch tagMask px e = Return px' ->
  TagsMap px' !! t = Some v ->
  TagsMap px !! t = Some v \/
  (mask_lookup tagMask t = true /\ is_nevra_tag t = false /\
   Tag (Info e) = t /\ entryValue e = Return v).
Proof.
  destruct (is_nevra_tag (Tag (Info e))) eqn:Hn.
  - intros Hsw Hl. left. rewrite <- Hl. symmetry.
    destruct (Z.eq_dec (Tag (Info e)) t) as [Heq|Hne];
      [|eapply switch_TagsMap_other; eauto].
    revert Hsw. unfold getPackageWithTags_switch. cbv zeta. fields.
    repeat switch_step_eq; try discriminate; try (intros [= <-]; reflexivity).
    exfalso. unfold is_nevra_tag, nevra_tags in Hn. cbn [existsb] in Hn.
    repeat match goal with H : (_ =? _) = false |- _ => rewrite H in Hn; clear H end.
    discriminate Hn.
  - rewrite getPackageWithTags_switch_other by exact Hn.
    destruct (mask_lookup tagMask (Tag (Info e))) eqn:Hm; [|intros [= <-]; auto].
    destruct (entryValue e) as [w| |] eqn:Hv; try discriminate; [|intros [= <-]; auto].
    intros [= <-]. cbn [TagsMap]. rewrite lookup_insert.
    destruct (decide (Tag (Info e) = t)) as [<-|Hne]; [|auto].
    intros [= <-]. right. auto.
Qed.

Lemma loop_TagsMap_sound (tagMask : gmap Z bool) (l : list indexEntry)
  (t : TAG_ID) (v : value) :
  forall px px',
  for_range (getPackageWithTags_switch tagMask) px l = Return px' ->
  TagsMap px' !! t = Some v ->
  TagsMap px !! t = Some v \/
  (mask_lookup tagMask t = true /\ is_nevra_tag t = false /\
   exists e, In e l /\ Tag (Info e) = t /\ entryValue e = Return v).
Proof.
  induction l as [|e l IH]; intros px px' Hrun Hl; simpl in Hrun.
  - injection Hrun as <-. auto.
  - destruct (getPackageWithTags_switch tagMask px e) as [p1| |] eqn:E; try discriminate.
    destruct (IH _ _ Hrun Hl) as [H1|(Hm & Hn & e' & Hin & Ht & Hv)].
    + destruct (switch_TagsMap_sound _ _ _ _ _ _ E H1) as [H0|(Hm & Hn & Ht & Hv)]; [auto|].
      right. repeat split; auto. exists e. simpl. auto.
    + right. repeat split; auto. exists e'. simpl. auto.
Qed.

(** X13. Every value in the tags map of a successful extended
    projection was decoded from an entry of the list: its key is a
    requested tag, is none of the nine recognized tags, and is the tag
    of an entry on which [entryValue] returns that value. *)
Theorem getPackageWithTags_map_sound
  (l : list indexEntry) (tagMask : gmap Z bool) (px : PackageInfoEx)
  (t : TAG_ID) (v : value) :
  getPackageWithTags l tagMask = Return px ->
  TagsMap px !! t = Some v ->
  mask_lookup tagMask t = true /\ is_nevra_tag t = false /\
  exists e, In e l /\ Tag (Info e) = t /\ entryValue e = Return v.
Proof.
  intros Hrun Hl. unfold getPackageWithTags in Hrun.
  destruct (loop_TagsMap_sound tagMask l t v _ _ Hrun Hl) as [H|H]; [|exact H].
  cbn [TagsMap] in H. rewrite lookup_empty in H. discriminate H.
Qed.

(** X14. A requested entry outside the nine tags whose value decodes is
    found in the tags map under its tag, when no later entry carries
    the tag and the projection succeeds. *)
Theorem getPackageWithTags_map_stores
  (l1 l2 : list indexEntry) (e : indexEntry) (tagMask : gmap Z bool)
  (px : PackageInfoEx) (v : value) :
  getPackageWithTags (l1 ++ e :: l2) tagMask = Return px ->
  mask_lookup tagMask (Tag (Info e)) = true ->
  is_nevra_tag (Tag (Info e)) = false ->
  entryValue e = Return v ->
  tag_absent (Tag (Info e)) l2 = true ->
  TagsMap px !! Tag (Info e) = Some v.
Proof.
  intros Hrun Hm Hn Hv Habs. unfold getPackageWithTags in Hrun.
  rewrite for_range_app in Hrun.
  destruct (for_range (getPackageWithTags_switch tagMask)
              (mkPackageInfoEx zero_PackageInfo ∅) l1) as [pm| |]; try discriminate.
  simpl in Hrun. rewrite (switch_decode_success tagMask pm e v Hn Hm Hv) in Hrun.
  rewrite (loop_TagsMap_other tagMask l2 (Tag (Info e)) Habs _ _ Hrun).
  cbn [TagsMap]. apply lookup_insert_eq.
Qed.

Lemma getPackageWithTags_map_sound_witness :
  getPackageWithTags [name_bash; sigmd5; summary_null] (request [RPMTAG_SIGMD5; RPMTAG_SUMMARY])
  = Return (mkPackageInfoEx (with_Name "bash" zero_PackageInfo)
              {[RPMTAG_SIGMD5 := Str "deadbeef"]}) /\
  mask_lookup (request [RPMTAG_SIGMD5; RPMTAG_SUMMARY]) RPMTAG_SIGMD5 = true /\
  is_nevra_tag RPMTAG_SIGMD5 = false /\
  exists e, In e [name_bash; sigmd5; summary_null] /\
            Tag (Info e) = RPMTAG_SIGMD5 /\ entryValue e = Return (Str "deadbeef").
Proof.
  split; [reflexivity|].
  apply (getPackageWithTags_map_sound [name_bash; sigmd5; summary_null]
           (request [RPMTAG_SIGMD5; RPMTAG_SUMMARY])
           (mkPackageInfoEx (with_Name "bash" zero_PackageInfo)
              {[RPMTAG_SIGMD5 := Str "deadbeef"]})
           RPMTAG_SIGMD5 (Str "deadbeef")); reflexivity.
Defined.

Lemma getPackageWithTags_map_stores_witness :
  TagsMap (mkPackageInfoEx (with_Name "bash" zero_PackageInfo)
             {[RPMTAG_SIGMD5 := Str "deadbeef"]}) !! Tag (Info sigmd5)
  = Some (Str "deadbeef").
Proof.
  apply (getPackageWithTags_map_stores [name_bash] [summary_null] sigmd5
           (request [RPMTAG_SIGMD5; RPMTAG_SUMMARY])
           (mkPackageInfoEx (with_Name "bash" zero_PackageInfo)
              {[RPMTAG_SIGMD5 := Str "deadbeef"]})
           (Str "deadbeef")); reflexivity.
Defined.

Lemma switch_not_requested (tagMask : gmap Z bool) (px : PackageInfoEx) (e : indexEntry) :
  mask_lookup tagMask (Tag (Info e)) = false ->
  getPackageWithTags_switch tagMask px e
  = match getNEVRA_switch (Embedded px) e with
    | Return p' => Return (mkPackageInfoEx p' (TagsMap px))
    | Fail err => Fail err
    | Panics q => Panics q
    end.
Proof.
  intros Hm. destruct px as [p m].
  unfold getPackageWithTags_switch, getNEVRA_switch. cbv zeta. fields.
  repeat switch_step; try reflexivity.
  rewrite Hm. reflexivity.
Qed.

Lemma loop_not_requested (tagMask : gmap Z bool) (l : list indexEntry) :
  (forall e, In e l -> mask_lookup tagMask (Tag (Info e)) = false) ->
  forall px,
  for_range (getPackageWithTags_switch tagMask) px l
  = match for_range getNEVRA_switch (Embedded px) l with
    | Return p' => Return (mkPackageInfoEx p' (TagsMap px))
    | Fail err => Fail err
    | Panics q => Panics q
    end.
Proof.
  induction l as [|e l IH]; intros Hall px.
  - destruct px. reflexivity.
  - simpl. rewrite switch_not_requested by (apply Hall; left; reflexivity).
    destruct (getNEVRA_switch (Embedded px) e) as [p1| |]; try reflexivity.
    rewrite IH by (intros e' Hin; apply Hall; right; exact Hin). reflexivity.
Qed.

(** X15. When none of the entries' tags is requested, in particular
    with an empty request, [getPackageWithTags] is [getNEVRA] with an
    empty tags map: the same record, the same error, and no call of
    [entryValue], so no panic whatever the entries are. *)
Theorem getPackageWithTags_nothing_requested
  (l : list indexEntry) (tagMask : gmap Z bool) :
  (forall e, In e l -> mask_lookup tagMask (Tag (Info e)) = false) ->
  getPackageWithTags l tagMask
  = match getNEVRA l with
    | Return p => Return (mkPackageInfoEx p ∅)
    | Fail err => Fail err
    | Panics q => Panics q
    end.
Proof.
  intros Hall. unfold getPackageWithTags, getNEVRA.
  apply (loop_not_requested tagMask l Hall (mkPackageInfoEx zero_PackageInfo ∅)).
Qed.

Lemma getPackageWithTags_nothing_requested_witness :
  getPackageWithTags [name_bash; sigmd5_beyond] (request [RPMTAG_SUMMARY])
  = Return (mkPackageInfoEx (with_Name "bash" zero_PackageInfo) ∅).
Proof.
  apply (getPackageWithTags_nothing_requested [name_bash; sigmd5_beyond]
           (request [RPMTAG_SUMMARY])).
  intros e [<-|[<-|[]]]; reflexivity.
Defined.

(** ** The listings *)

Section Listings.

Context {Edb Eimp : Type}.
Variable headerImport : slice -> Eimp + list indexEntry.

Lemma ListPackages_loop_app (l1 l2 : list (bdb_entry Edb)) (acc : list PackageInfo) :
  ListPackages_loop headerImport acc (l1 ++ l2)
  = match ListPackages_loop headerImport acc l1 with
    | Listed acc' => ListPackages_loop headerImport acc' l2
    | ListFailed e => ListFailed e
    | ListPanics p => ListPanics p
    end.
Proof.
  revert acc. induction l1 as [|r l1 IH]; intros acc; simpl; [reflexivity|].
  destruct (Err r); [reflexivity|].
  destruct (headerImport (Value r)); [reflexivity|].
  destruct (getNEVRA l); auto.
Qed.

Lemma ListPackages_loop_listed (entries : list (bdb_entry Edb))
  (acc pkgs : list PackageInfo) :
  ListPackages_loop headerImport acc entries = Listed pkgs <->
  exists new, pkgs = acc ++ new /\ Forall2 (lists_as headerImport) entries new.
Proof.
  revert acc. induction entries as [|r rest IH]; intros acc; simpl.
  - split.
    + intros [= <-]. exists []. split; [symmetry; apply app_nil_r|constructor].
    + intros (new & -> & H). inversion H. rewrite app_nil_r. reflexivity.
  - split.
    + destruct (Err r) eqn:Herr; [discriminate|].
      destruct (headerImport (Value r)) as [|ies] eqn:Himp; [discriminate|].
      destruct (getNEVRA ies) as [pkg| |] eqn:Hp; try discriminate.
      intros H. apply IH in H as (new & -> & HF).
      exists (pkg :: new). split; [rewrite <- app_assoc; reflexivity|].
      constructor; [|exact HF]. split; [exact Herr|eauto].
    + intros (new & -> & H). inversion H as [|? pkg ? new' [Herr (ies & Himp & Hp)] HF]; subst.
      rewrite Herr, Himp, Hp. apply IH. exists new'.
      split; [rewrite <- app_assoc; reflexivity|exact HF].
Qed.

(** X16. [ListPackages] returns a list exactly when every record read
    has no error, its value imports as a header and its index entries
    project; the list then has one package per record, in the order of
    the records, each the projection of its record. *)
Theorem ListPackages_listed (entries : list (bdb_entry Edb)) (pkgs : list PackageInfo) :
  ListPackages headerImport entries = Listed pkgs <-> Forall2 (lists_as headerImport) entries pkgs.
Proof.
  unfold ListPackages. rewrite ListPackages_loop_listed. split.
  - intros (new & -> & H). exact H.
  - intros H. exists pkgs. split; [reflexivity|exact H].
Qed.

(** X17. [ListPackages] stops at the first record that fails, whatever
    follows it: a read error is returned as it is, an import error and
    a projection error wrapped; and no package is returned then. *)
Theorem ListPackages_first_failure
  (l1 l2 : list (bdb_entry Edb)) (r : bdb_entry Edb) (pkgs : list PackageInfo) :
  ListPackages headerImport l1 = Listed pkgs ->
  (forall err, Err r = Some err ->
     ListPackages headerImport (l1 ++ r :: l2) = ListFailed (EntryErr err)) /\
  (forall err, Err r = None -> headerImport (Value r) = inl err ->
     ListPackages headerImport (l1 ++ r :: l2) = ListFailed (ImportingHeader err)) /\
  (forall indexEntries err,
     Err r = None -> headerImport (Value r) = inr indexEntries ->
     getNEVRA indexEntries = Fail err ->
     ListPackages headerImport (l1 ++ r :: l2) = ListFailed (InvalidPackageInfo err)).
Proof.
  intros Hpre. unfold ListPackages in *. rewrite ListPackages_loop_app, Hpre. simpl.
  repeat split.
  - intros err ->. reflexivity.
  - intros err -> ->. reflexivity.
  - intros ies err -> -> ->. reflexivity.
Qed.

(** X18. [ListPackages] never panics, whatever the records hold and
    whatever entries the import gives: it returns a list or an error. *)
Theorem ListPackages_never_panics (entries : list (bdb_entry Edb)) :
  (exists pkgs, ListPackages headerImport entries = Listed pkgs) \/
  (exists err, ListPackages headerImport entries = ListFailed err).
Proof.
  unfold ListPackages. generalize (@nil PackageInfo).
  induction entries as [|r rest IH]; intros acc; simpl; [eauto|].
  destruct (Err r); [eauto|].
  destruct (headerImport (Value r)) as [|ies]; [eauto|].
  unfold getNEVRA.
  destruct (getNEVRA_loop_total ies zero_PackageInfo) as [[pkg ->]|[err ->]];
    [apply IH|eauto].
Qed.

End Listings.

Lemma ListPackages_listed_witness :
  Forall2 (lists_as toy_import) [good_record; good_record]
    [with_Name "bash" zero_PackageInfo; with_Name "bash" zero_PackageInfo] /\
  ListPackages toy_import [good_record; good_record]
  = Listed [with_Name "bash" zero_PackageInfo; with_Name "bash" zero_PackageInfo].
Proof.
  assert (H : lists_as toy_import good_record (with_Name "bash" zero_PackageInfo)).
  { split; [reflexivity|]. exists [name_bash; sigmd5]. split; reflexivity. }
  assert (HF : Forall2 (lists_as toy_import) [good_record; good_record]
                 [with_Name "bash" zero_PackageInfo; with_Name "bash" zero_PackageInfo]).
  { constructor; [exact H|]. constructor; [exact H|]. constructor. }
  split; [exact HF|].
  apply (ListPackages_listed toy_import). exact HF.
Defined.

Lemma ListPackages_first_failure_witness :
  ListPackages toy_import ([good_record] ++ failed_record :: [good_record])
  = ListFailed (EntryErr "unexpected EOF"%string) /\
  ListPackages toy_import ([good_record] ++ bad_record :: [failed_record])
  = ListFailed (ImportingHeader "bad magic"%string).
Proof.
  split.
  - apply (ListPackages_first_failure toy_import [good_record] [good_record] failed_record
             [with_Name "bash" zero_PackageInfo] eq_refl). reflexivity.
  - apply (ListPackages_first_failure toy_import [good_record] [failed_record] bad_record
             [with_Name "bash" zero_PackageInfo] eq_refl); reflexivity.
Defined.

(** X19. The tag mask [ListPackagesWithTags] builds from its arguments
    holds exactly the given tags: a lookup is true for a tag among
    [ids] and false for any other. *)
Theorem make_tagMask_lookup (ids : list TAG_ID) (t : TAG_ID) :
  mask_lookup (make_tagMask ids) t = true <-> In t ids.
Proof.
  unfold make_tagMask.
  assert (Hgen : forall m,
    mask_lookup (fold_left (fun tagMask id => <[id := true]> tagMask) ids m) t = true
    <-> In t ids \/ mask_lookup m t = true).
  { induction ids as [|id ids IH]; intros m; simpl.
    - tauto.
    - rewrite IH. unfold mask_lookup at 1. rewrite lookup_insert.
      destruct (decide (id = t)) as [->|Hne]; simpl.
      + tauto.
      + fold (mask_lookup m t). intuition congruence. }
  rewrite Hgen. unfold mask_lookup. rewrite lookup_empty. simpl.
  intuition discriminate.
Qed.

Lemma make_tagMask_lookup_witness :
  mask_lookup (make_tagMask [RPMTAG_SUMMARY; RPMTAG_SIGMD5; RPMTAG_SUMMARY]) RPMTAG_SIGMD5 = true /\
  ~ In RPMTAG_BASENAMES [RPMTAG_SUMMARY; RPMTAG_SIGMD5; RPMTAG_SUMMARY].
Proof.
  split.
  - apply (make_tagMask_lookup [RPMTAG_SUMMARY; RPMTAG_SIGMD5; RPMTAG_SUMMARY] RPMTAG_SIGMD5).
    right. left. reflexivity.
  - intros H.
    apply (make_tagMask_lookup [RPMTAG_SUMMARY; RPMTAG_SIGMD5; RPMTAG_SUMMARY] RPMTAG_BASENAMES) in H.
    discriminate H.
Defined.

Section ListingsWithTags.

Context {Edb Eimp : Type}.
Variable headerImport : slice -> Eimp + list indexEntry.

Lemma ListPackagesWithTags_loop_listed (tagMask : gmap Z bool)
  (entries : list (bdb_entry Edb)) (acc pkgs : list PackageInfoEx) :
  ListPackagesWithTags_loop headerImport tagMask acc entries = Listed pkgs <->
  exists new, pkgs = acc ++ new
              /\ Forall2 (lists_with_tags_as headerImport tagMask) entries new.
Proof.
  revert acc. induction entries as [|r rest IH]; intros acc; simpl.
  - split.
    + intros [= <-]. exists []. split; [symmetry; apply app_nil_r|constructor].
    + intros (new & -> & H). inversion H. rewrite app_nil_r. reflexivity.
  - split.
    + destruct (Err r) eqn:Herr; [discriminate|].
      destruct (headerImport (Value r)) as [|ies] eqn:Himp; [discriminate|].
      destruct (getPackageWithTags ies tagMask) as [pkg| |] eqn:Hp; try discriminate.
      intros H. apply IH in H as (new & -> & HF).
      exists (pkg :: new). split; [rewrite <- app_assoc; reflexivity|].
      constructor; [|exact HF]. split; [exact Herr|eauto].
    + intros (new & -> & H). inversion H as [|? pkg ? new' [Herr (ies & Himp & Hp)] HF]; subst.
      rewrite Herr, Himp, Hp. apply IH. exists new'.
      split; [rewrite <- app_assoc; reflexivity|exact HF].
Qed.

Lemma listings_simulation (tagMask : gmap Z bool) (entries : list (bdb_entry Edb))
  (accx : list PackageInfoEx) :
  match ListPackagesWithTags_loop headerImport tagMask accx entries with
  | Listed pkgs =>
      ListPackages_loop headerImport (map Embedded accx) entries
      = Listed (map Embedded pkgs)
  | ListFailed err =>
      ListPackages_loop headerImport (map Embedded accx) entries = ListFailed err
  | ListPanics _ => True
  end.
Proof.
  revert accx. induction entries as [|r rest IH]; intros accx; simpl; [reflexivity|].
  destruct (Err r); [reflexivity|].
  destruct (headerImport (Value r)) as [|ies]; [reflexivity|].
  pose proof (loop_simulation tagMask ies (mkPackageInfoEx zero_PackageInfo ∅)) as Hsim.
  unfold getPackageWithTags, getNEVRA. cbn [Embedded] in Hsim.
  destruct (for_range (getPackageWithTags_switch tagMask)
              (mkPackageInfoEx zero_PackageInfo ∅) ies) as [px|err|q];
    rewrite ?Hsim; [|reflexivity|exact I].
  specialize (IH (accx ++ [px])). rewrite map_app in IH. exact IH.
Qed.

(** X20. Whatever tags are requested, [ListPackagesWithTags] lists
    what [ListPackages] lists: when it returns packages, [ListPackages]
    on the same records returns their embedded [PackageInfo]s, in the
    same order, and when it returns an error, [ListPackages] returns
    the same error. *)
Theorem ListPackagesWithTags_refines_ListPackages
  (entries : list (bdb_entry Edb)) (ids : list TAG_ID) :
  (forall pkgs, ListPackagesWithTags headerImport entries ids = Listed pkgs ->
     ListPackages headerImport entries = Listed (map Embedded pkgs)) /\
  (forall err, ListPackagesWithTags headerImport entries ids = ListFailed err ->
     ListPackages headerImport entries = ListFailed err).
Proof.
  pose proof (listings_simulation (make_tagMask ids) entries []) as H.
  unfold ListPackagesWithTags, ListPackages. split.
  - intros pkgs E. rewrite E in H. exact H.
  - intros err E. rewrite E in H. exact H.
Qed.

(** X21. Every key of every tags map [ListPackagesWithTags] returns is
    one of the requested tags and none of the nine recognized tags. *)
Theorem ListPackagesWithTags_keys
  (entries : list (bdb_entry Edb)) (ids : list TAG_ID)
  (pkgs : list PackageInfoEx) (px : PackageInfoEx) (t : TAG_ID) (v : value) :
  ListPackagesWithTags headerImport entries ids = Listed pkgs ->
  In px pkgs -> TagsMap px !! t = Some v ->
  In t ids /\ is_nevra_tag t = false.
Proof.
  intros Hrun Hin Hl. unfold ListPackagesWithTags in Hrun.
  apply ListPackagesWithTags_loop_listed in Hrun as (new & -> & HF).
  simpl in Hin.
  assert (Hpx : exists ies, getPackageWithTags ies (make_tagMask ids) = Return px).
  { clear Hl. induction HF as [|r px' rest new' [_ (ies & _ & Hp)] _ IH]; [destruct Hin|].
    destruct Hin as [<-|Hin]; eauto. }
  destruct Hpx as (ies & Hp).
  destruct (loop_TagsMap_sound (make_tagMask ids) ies t v _ _ Hp Hl) as [H|(Hm & Hn & _)].
  - cbn [TagsMap] in H. rewrite lookup_empty in H. discriminate H.
  - split; [apply make_tagMask_lookup; exact Hm|exact Hn].
Qed.

(** X22. [ListPackagesWithTags] without tags is [ListPackages]: the
    same packages, each with an empty tags map, the same error, and
    never a panic. *)
Theorem ListPackagesWithTags_no_tags (entries : list (bdb_entry Edb)) :
  ListPackagesWithTags headerImport entries []
  = match ListPackages headerImport entries with
    | Listed pkgs => Listed (map (fun p => mkPackageInfoEx p ∅) pkgs)
    | ListFailed err => ListFailed err
    | ListPanics p => ListPanics p
    end.
Proof.
  unfold ListPackagesWithTags, ListPackages.
  change (@nil PackageInfoEx) with (map (fun p => mkPackageInfoEx p ∅) (@nil PackageInfo)) at 1.
  generalize (@nil PackageInfo).
  induction entries as [|r rest IH]; intros acc; simpl; [reflexivity|].
  destruct (Err r); [reflexivity|].
  destruct (headerImport (Value r)) as [|ies]; [reflexivity|].
  rewrite (getPackageWithTags_nothing_requested ies (make_tagMask []))
    by (intros e _; reflexivity).
  destruct (getNEVRA ies) as [pkg| |]; try reflexivity.
  specialize (IH (acc ++ [pkg])). rewrite map_app in IH. exact IH.
Qed.

End ListingsWithTags.

Lemma ListPackagesWithTags_refines_ListPackages_witness :
  ListPackagesWithTags toy_import [good_record; good_record] [RPMTAG_SIGMD5]
  = Listed [mkPackageInfoEx (with_Name "bash" zero_PackageInfo) {[RPMTAG_SIGMD5 := Str "deadbeef"]};
            mkPackageInfoEx (with_Name "bash" zero_PackageInfo) {[RPMTAG_SIGMD5 := Str "deadbeef"]}] /\
  ListPackages toy_import [good_record; good_record]
  = Listed [with_Name "bash" zero_PackageInfo; with_Name "bash" zero_PackageInfo].
Proof.
  split; [reflexivity|].
  destruct (ListPackagesWithTags_refines_ListPackages toy_import
              [good_record; good_record] [RPMTAG_SIGMD5]) as [Hlist _].
  apply (Hlist [mkPackageInfoEx (with_Name "bash" zero_PackageInfo) {[RPMTAG_SIGMD5 := Str "deadbeef"]};
                mkPackageInfoEx (with_Name "bash" zero_PackageInfo) {[RPMTAG_SIGMD5 := Str "deadbeef"]}]).
  reflexivity.
Defined.

Lemma ListPackagesWithTags_keys_witness :
  In RPMTAG_SIGMD5 [RPMTAG_SIGMD5; RPMTAG_NAME] /\ is_nevra_tag RPMTAG_SIGMD5 = false.
Proof.
  apply (ListPackagesWithTags_keys toy_import [good_record] [RPMTAG_SIGMD5; RPMTAG_NAME]
           [mkPackageInfoEx (with_Name "bash" zero_PackageInfo) {[RPMTAG_SIGMD5 := Str "deadbeef"]}]
           (mkPackageInfoEx (with_Name "bash" zero_PackageInfo) {[RPMTAG_SIGMD5 := Str "deadbeef"]})
           RPMTAG_SIGMD5 (Str "deadbeef")).
  - reflexivity.
  - left. reflexivity.
  - reflexivity.
Defined.

(** ** The integer fields of getNEVRA *)

Lemma Read_int32_short_read (r : list byte) :
  (length r < 4)%nat -> Binary.Read_int32 r = (inl (short_read r), []).
Proof.
  intros H. unfold Binary.Read_int32, Binary.ReadFull.
  destruct (Nat.leb_spec 4 (length r)); [lia|]. destruct r; reflexivity.
Qed.

(** Over acceptable entries the loop runs to a record, from any record. *)
Lemma loop_succeeds (l : list indexEntry) :
  forallb nevra_entry_ok l = true ->
  forall p, exists p', for_range getNEVRA_switch p l = Return p'.
Proof.
  induction l as [|e l IH]; intros Hok p; simpl in *; [eauto|].
  apply andb_true_iff in Hok as [He Hl].
  destruct (proj2 (switch_succeeds_iff p e) He) as [p1 ->]. apply IH. exact Hl.
Qed.

(** What a successful projection says of its integer entries: each had
    four bytes of data, and the field is their signed big-endian
    reading at the last entry with the tag. *)
Lemma getNEVRA_int32_of_success (l1 l2 : list indexEntry) (e : indexEntry) (p : PackageInfo) :
  getNEVRA (l1 ++ e :: l2) = Return p ->
  (Tag (Info e) = RPMTAG_EPOCH -> tag_absent RPMTAG_EPOCH l2 = true ->
   exists b0 b1 b2 b3 rest,
     view (Data e) = b0 :: b1 :: b2 :: b3 :: rest /\
     Epoch p = signed_be32 b0 b1 b2 b3) /\
  (Tag (Info e) = RPMTAG_SIZE -> tag_absent RPMTAG_SIZE l2 = true ->
   exists b0 b1 b2 b3 rest,
     view (Data e) = b0 :: b1 :: b2 :: b3 :: rest /\
     Size p = signed_be32 b0 b1 b2 b3).
Proof.
  intros Hrun. unfold getNEVRA in Hrun. split; intros Htag Habs.
  - destruct (loop_last_entry Epoch RPMTAG_EPOCH l1 l2 e _ _
                switch_keeps_Epoch Habs Hrun) as (pm & p1 & Hsw & ->).
    rewrite switch_at_Epoch in Hsw by exact Htag.
    destruct (Typ (Info e) =? RPM_INT32_TYPE)%N; [|discriminate].
    destruct (Binary.Read_int32 (view (Data e))) as [[err|v] r] eqn:E; [discriminate|].
    apply Read_int32_inv in E as (b0 & b1 & b2 & b3 & Hd & ->).
    injection Hsw as <-. exists b0, b1, b2, b3, r. split; [exact Hd|reflexivity].
  - destruct (loop_last_entry Size RPMTAG_SIZE l1 l2 e _ _
                switch_keeps_Size Habs Hrun) as (pm & p1 & Hsw & ->).
    rewrite switch_at_Size in Hsw by exact Htag.
    destruct (Typ (Info e) =? RPM_INT32_TYPE)%N; [|discriminate].
    destruct (Binary.Read_int32 (view (Data e))) as [[err|v] r] eqn:E; [discriminate|].
    apply Read_int32_inv in E as (b0 & b1 & b2 & b3 & Hd & ->).
    injection Hsw as <-. exists b0, b1, b2, b3, r. split; [exact Hd|reflexivity].
Qed.

(** C7, as stated, fails: an EPOCH entry of type INT32 with two bytes
    of data is not decoded; [getNEVRA] returns the read error. *)
Lemma getNEVRA_int32_short_data_is_error :
  Tag (Info epoch_short) = RPMTAG_EPOCH /\
  Typ (Info epoch_short) = RPM_INT32_TYPE /\
  view (Data epoch_short) = [x00; x01] /\
  getNEVRA [epoch_short] = Fail (Errorf "failed to read binary (epoch)" ErrUnexpectedEOF) /\
  ~ (exists p, getNEVRA [epoch_short] = Return p).
Proof.
  repeat (split; [reflexivity|]).
  intros [p H]. vm_compute in H. discriminate H.
Qed.

(** C7, amended. For every entry with tag EPOCH (1003) or SIZE (1009)
    and type INT32 in a list whose other entries are acceptable: with
    at least four bytes of data, [getNEVRA] succeeds and the field is
    the big-endian signed 32-bit integer of the first four bytes of
    the entry's data, whatever the declared count (and unless a later
    entry carries the tag again); with fewer than four bytes of data,
    [getNEVRA] returns the read error. *)
Theorem getNEVRA_int32_fields (l1 l2 : list indexEntry) (e : indexEntry) :
  Typ (Info e) = RPM_INT32_TYPE ->
  forallb nevra_entry_ok l1 = true ->
  (forall (b0 b1 b2 b3 : byte) (rest : list byte),
     view (Data e) = b0 :: b1 :: b2 :: b3 :: rest ->
     forallb nevra_entry_ok l2 = true ->
     (Tag (Info e) = RPMTAG_EPOCH -> tag_absent RPMTAG_EPOCH l2 = true ->
      exists p, getNEVRA (l1 ++ e :: l2) = Return p /\
                Epoch p = signed_be32 b0 b1 b2 b3) /\
     (Tag (Info e) = RPMTAG_SIZE -> tag_absent RPMTAG_SIZE l2 = true ->
      exists p, getNEVRA (l1 ++ e :: l2) = Return p /\
                Size p = signed_be32 b0 b1 b2 b3)) /\
  ((length (view (Data e)) < 4)%nat ->
   (Tag (Info e) = RPMTAG_EPOCH ->
    getNEVRA (l1 ++ e :: l2)
    = Fail (Errorf "failed to read binary (epoch)" (short_read (view (Data e))))) /\
   (Tag (Info e) = RPMTAG_SIZE ->
    getNEVRA (l1 ++ e :: l2)
    = Fail (Errorf "failed to read binary (size)" (short_read (view (Data e)))))).
Proof.
  intros Hty Hok1. unfold getNEVRA.
  destruct (loop_succeeds l1 Hok1 zero_PackageInfo) as [pm Hpre].
  split.
  - intros b0 b1 b2 b3 rest Hdata Hok2. split; intros Htag Habs.
    + assert (Hsw : getNEVRA_switch pm e
                    = Return (with_Epoch (signed_be32 b0 b1 b2 b3) pm)).
      { rewrite switch_at_Epoch by exact Htag.
        rewrite Hty, Hdata, Read_int32_four. reflexivity. }
      destruct (loop_succeeds l2 Hok2 (with_Epoch (signed_be32 b0 b1 b2 b3) pm))
        as [p Hrun].
      exists p. rewrite for_range_app, Hpre. simpl. rewrite Hsw.
      split; [exact Hrun|].
      apply (loop_keeps Epoch RPMTAG_EPOCH switch_keeps_Epoch l2 _ _ Habs Hrun).
    + assert (Hsw : getNEVRA_switch pm e
                    = Return (with_Size (signed_be32 b0 b1 b2 b3) pm)).
      { rewrite switch_at_Size by exact Htag.
        rewrite Hty, Hdata, Read_int32_four. reflexivity. }
      destruct (loop_succeeds l2 Hok2 (with_Size (signed_be32 b0 b1 b2 b3) pm))
        as [p Hrun].
      exists p. rewrite for_range_app, Hpre. simpl. rewrite Hsw.
      split; [exact Hrun|].
      apply (loop_keeps Size RPMTAG_SIZE switch_keeps_Size l2 _ _ Habs Hrun).
  - intros Hshort. split; intros Htag; rewrite for_range_app, Hpre; simpl.
    + rewrite switch_at_Epoch by exact Htag.
      rewrite Hty, Read_int32_short_read by exact Hshort. reflexivity.
    + rewrite switch_at_Size by exact Htag.
      rewrite Hty, Read_int32_short_read by exact Hshort. reflexivity.
Qed.

Lemma getNEVRA_int32_fields_witness :
  Count (Info epoch_two_words) = 2%N /\
  signed_be32 xff xff xff xfe = -2 /\
  getNEVRA ([name_bash; sigmd5] ++ epoch_two_words :: [size_7000000; vendor_none])
  = Return (mkPackageInfo (-2) "bash" EmptyString EmptyString EmptyString EmptyString
              7000000 EmptyString EmptyString) /\
  (exists p,
     getNEVRA ([name_bash; sigmd5] ++ epoch_two_words :: [size_7000000; vendor_none])
     = Return p /\ Epoch p = signed_be32 xff xff xff xfe) /\
  getNEVRA ([name_bash] ++ epoch_short :: [name_as_int32])
  = Fail (Errorf "failed to read binary (epoch)" (short_read (view (Data epoch_short)))).
Proof.
  repeat (split; [reflexivity|]).
  split.
  - destruct (getNEVRA_int32_fields [name_bash; sigmd5] [size_7000000; vendor_none]
                epoch_two_words eq_refl eq_refl) as [Hdec _].
    destruct (Hdec xff xff xff xfe [x00; x00; x00; x01] eq_refl eq_refl) as [Hepoch _].
    apply Hepoch; reflexivity.
  - destruct (getNEVRA_int32_fields [name_bash] [name_as_int32]
                epoch_short eq_refl eq_refl) as [_ Hshort].
    destruct Hshort as [Hepoch _]; [simpl; lia|].
    apply Hepoch. reflexivity.
Defined.
